(** * golang-todo: the in-memory todo service of [cmd/main.go]

    A shallow embedding of the three request handlers (create, list,
    update-status), the health check and the two generic helpers
    [decodeJSON] and [respondJSON], followed by the properties of the
    store they maintain.

    The handlers close over one slice, [todos].  Everything they touch
    outside the program text is made explicit:
    - [time.Now()] and [uuid.New()] read from a clock and from a source of
      identifiers; the n-th reading of each is given by the [Runtime];
    - [encoding/json] is a parameter ([JSONTarget]): the handlers are
      verified for every decoder;
    - the [http.ResponseWriter] is the log of the calls made on it, and the
      connection behind it may fail, in which case encoding returns the
      error of the write. *)

From Stdlib Require Import ZArith Lia Ascii String.
From stdpp Require Import base list strings.

Local Open Scope string_scope.
Local Open Scope list_scope.
Local Open Scope Z_scope.

(** ** Data model *)

(** [time.Time]: an instant.  Only equality and order of instants matter. *)
Definition Time := Z.

(** [type TodoStatus string] with its two constants. *)
Definition TodoStatus := string.
Definition StatusPending : TodoStatus := "pending".
Definition StatusCompleted : TodoStatus := "completed".

(** [type Todo struct].  [CompletedAt] is a [*time.Time]: [None] is nil. *)
Record Todo := mkTodo {
  ID : string;
  Title : string;
  Description : string;
  Status : TodoStatus;
  CreatedAt : Time;
  UpdatedAt : Time;
  CompletedAt : option Time
}.

(** Field assignments [todo.F = x] on a struct value. *)
Definition set_ID (x : string) (t : Todo) : Todo :=
  mkTodo x (Title t) (Description t) (Status t) (CreatedAt t) (UpdatedAt t) (CompletedAt t).
Definition set_Status (x : TodoStatus) (t : Todo) : Todo :=
  mkTodo (ID t) (Title t) (Description t) x (CreatedAt t) (UpdatedAt t) (CompletedAt t).
Definition set_CreatedAt (x : Time) (t : Todo) : Todo :=
  mkTodo (ID t) (Title t) (Description t) (Status t) x (UpdatedAt t) (CompletedAt t).
Definition set_UpdatedAt (x : Time) (t : Todo) : Todo :=
  mkTodo (ID t) (Title t) (Description t) (Status t) (CreatedAt t) x (CompletedAt t).
Definition set_CompletedAt (x : option Time) (t : Todo) : Todo :=
  mkTodo (ID t) (Title t) (Description t) (Status t) (CreatedAt t) (UpdatedAt t) x.

(** The keys of the JSON object a [Todo] is encoded as, read off the struct
    tags: [completed_at] carries [omitempty], so a nil pointer is left out. *)
Definition json_fields (t : Todo) : list string :=
  ["id"; "title"; "description"; "status"; "created_at"; "updated_at"]
  ++ match CompletedAt t with Some _ => ["completed_at"] | None => [] end.

(** The anonymous [struct { Status TodoStatus }] the update handler decodes. *)
Record StatusUpdate := mkStatusUpdate { update_Status : TodoStatus }.

(** ** Errors *)

(** A Go [error]: a plain message, or one built by [fmt.Errorf] with [%w],
    which keeps the error it wraps. *)
Inductive error :=
| errorString (msg : string)
| wrapError (msg : string) (err : error).

Definition Error (e : error) : string :=
  match e with errorString msg => msg | wrapError msg _ => msg end.

Definition Unwrap (e : error) : option error :=
  match e with errorString _ => None | wrapError _ err => Some err end.

(** [fmt.Errorf(prefix + "%w", err)] *)
Definition fmt_Errorf_w (prefix : string) (err : error) : error :=
  wrapError (prefix +:+ Error err) err.

(** ** Identifiers *)

(** [uuid.UUID] is a [[16]byte]; here the 128 bits as a number, most
    significant byte first. *)
Definition UUID := N.

Definition uuid_byte (u : UUID) (k : nat) : N :=
  ((u / 256 ^ N.of_nat (15 - k)) mod 256)%N.

Definition hexdigit (d : N) : ascii :=
  match String.get (N.to_nat d) "0123456789abcdef" with
  | Some c => c
  | None => "0"%char
  end.

Definition hex_byte (b : N) : string :=
  String (hexdigit (b / 16)%N) (String (hexdigit (b mod 16)%N) "").

Definition hex_bytes (u : UUID) (ks : list nat) : string :=
  foldr (λ k acc, hex_byte (uuid_byte u k) +:+ acc) "" ks.

(** [UUID.String()]: the form xxxxxxxx-xxxx-xxxx-xxxx-xxxxxxxxxxxx. *)
Definition UUID_String (u : UUID) : string :=
  hex_bytes u [0; 1; 2; 3]%nat +:+ "-" +:+
  hex_bytes u [4; 5]%nat +:+ "-" +:+
  hex_bytes u [6; 7]%nat +:+ "-" +:+
  hex_bytes u [8; 9]%nat +:+ "-" +:+
  hex_bytes u [10; 11; 12; 13; 14; 15]%nat.

(** ** What lies outside the program *)

(** The clock and the identifier source: the value of the n-th call of
    [time.Now()] and of [uuid.New()] made by the process. *)
Record Runtime := mkRuntime {
  clock : nat → Time;
  entropy : nat → UUID
}.

(** The zero value of a type, as [var v T] declares it. *)
Class GoType (T : Type) := zero : T.

Global Instance Todo_type : GoType Todo := mkTodo "" "" "" "" 0 0 None.
Global Instance StatusUpdate_type : GoType StatusUpdate := mkStatusUpdate "".

(** [encoding/json] at one target type [T]: the effect of
    [json.NewDecoder(body).Decode(&v)] on [v], and the error it returns. *)
Class JSONTarget (T : Type) := json_Decode : string → T → T * option error.

(** ** Requests, responses and the state of the process *)

(** [*http.Request]: the fields the handlers read. *)
Record Request := mkRequest {
  URL_Path : string;
  Body : string
}.

(** [any], at the two types the handlers encode. *)
Inductive any :=
| any_Todo (t : Todo)
| any_Todos (l : list Todo).

(** The calls a handler makes on its [http.ResponseWriter]. *)
Inductive WCall :=
| Header_Set (k v : string)            (* w.Header().Set(k, v) *)
| WriteHeader (code : Z)               (* w.WriteHeader(code) *)
| Encode (v : any)                     (* json.NewEncoder(w).Encode(v) *)
| http_Error_call (msg : string) (code : Z).  (* http.Error(w, msg, code) *)

Definition StatusOK : Z := 200.
Definition StatusCreated : Z := 201.
Definition StatusBadRequest : Z := 400.
Definition StatusNotFound : Z := 404.
Definition StatusInternalServerError : Z := 500.

(** The state a handler runs in: the captured slice, how often the clock
    and the identifier source were read, and for the request being served
    whether its body was closed, the error a write to its connection
    returns if the connection has failed ([None] on a sound one), and the
    calls made on the response writer so far. *)
Record State := mkState {
  todos : list Todo;
  ticks : nat;
  draws : nat;
  closed : bool;
  write_error : option error;
  calls : list WCall
}.

(** [todos := []Todo{}] at the start of [main]. *)
Definition initial : State := mkState [] 0 0 false None [].

(** ** The monad of handler code: state, and a panic that ends the handler *)

Inductive Result (A : Type) :=
| Ret (a : A) (s : State)
| Panic (s : State).
Arguments Ret {A} a s.
Arguments Panic {A} s.

Definition M (A : Type) : Type := State → Result A.

Global Instance M_ret : MRet M := λ A a s, Ret a s.
Global Instance M_bind : MBind M := λ A B f m s,
  match m s with
  | Ret a s' => f a s'
  | Panic s' => Panic s'
  end.

Definition final {A} (r : Result A) : State :=
  match r with Ret _ s => s | Panic s => s end.

Definition get_todos : M (list Todo) := λ s, Ret (todos s) s.

Definition set_todos (l : list Todo) : M unit := λ s,
  Ret tt (mkState l (ticks s) (draws s) (closed s) (write_error s) (calls s)).

(** [todos[i] = todo]: a run-time panic when [i] is out of range. *)
Definition store_index (i : nat) (todo : Todo) : M unit := λ s,
  if decide (i < length (todos s))%nat
  then set_todos (<[i := todo]> (todos s)) s
  else Panic s.

Definition w_call (c : WCall) : M unit := λ s,
  Ret tt (mkState (todos s) (ticks s) (draws s) (closed s) (write_error s) (calls s ++ [c])).

(** [r.Body.Close()] *)
Definition Body_Close : M unit := λ s,
  Ret tt (mkState (todos s) (ticks s) (draws s) true (write_error s) (calls s)).

(** [s[n:]] on a string: a run-time panic when [n] exceeds the length. *)
Fixpoint string_from (n : nat) (s : string) : option string :=
  match n with
  | O => Some s
  | S n' => match s with
            | EmptyString => None
            | String _ s' => string_from n' s'
            end
  end.

Definition slice_from (n : nat) (s : string) : M string := λ st,
  match string_from n s with
  | Some s' => Ret s' st
  | None => Panic st
  end.

(** ** The records the handlers build, in closed form *)

(** What [post_todos] makes of the decoded body [v] in state [s]: the
    identifier drawn next, the next two readings of the clock. *)
Definition created (rt : Runtime) (v : Todo) (s : State) : Todo :=
  mkTodo (UUID_String (entropy rt (draws s))) (Title v) (Description v)
         StatusPending (clock rt (ticks s)) (clock rt (S (ticks s)))
         (CompletedAt v).

(** What the k-th create leaves in the store when only creates have changed
    it: the k-th identifier, readings 2k and 2k+1 of the clock. *)
Definition entry (rt : Runtime) (k : nat) (v : Todo) : Todo :=
  mkTodo (UUID_String (entropy rt k)) (Title v) (Description v)
         StatusPending (clock rt (2 * k)) (clock rt (S (2 * k)))
         (CompletedAt v).

(** What the loop of [patch_todos] makes of the record [t] it matches. *)
Definition updated (u : StatusUpdate) (now : Time) (t : Todo) : Todo :=
  mkTodo (ID t) (Title t) (Description t) (update_Status u) (CreatedAt t) now
         (if String.eqb (update_Status u) StatusCompleted
          then Some now else CompletedAt t).

Section Handlers.

Context (rt : Runtime).
Context `{TT : !JSONTarget Todo, TU : !JSONTarget StatusUpdate}.

(** [time.Now()] *)
Definition time_Now : M Time := λ s,
  Ret (clock rt (ticks s))
      (mkState (todos s) (S (ticks s)) (draws s) (closed s) (write_error s) (calls s)).

(** [uuid.New()] *)
Definition uuid_New : M UUID := λ s,
  Ret (entropy rt (draws s))
      (mkState (todos s) (ticks s) (S (draws s)) (closed s) (write_error s) (calls s)).

(** [json.NewEncoder(w).Encode(v)]: returns the error of the write. *)
Definition json_Encode (v : any) : M (option error) := λ s,
  match w_call (Encode v) s with
  | Ret _ s' => Ret (write_error s) s'
  | Panic s' => Panic s'
  end.

(** [http.Error(w, msg, code)] *)
Definition http_Error (msg : string) (code : Z) : M unit :=
  w_call (http_Error_call msg code).

(** ** The helpers *)

(** [func decodeJSON[T any](r *http.Request) (T, error)].  The [defer] that
    closes the body is reached only after the error check, so it is
    registered, and runs at the return, on the second path alone. *)
Definition decodeJSON {T} `{GT : !GoType T, JT : !JSONTarget T} (r : Request)
    : M (T * option error) :=
  let v : T := zero in
  let '(v, err) := json_Decode (Body r) v in
  match err with
  | Some err =>
      mret (v, Some (fmt_Errorf_w "failed to decode request body: " err))
  | None =>
      Body_Close ;; mret (v, None)
  end.

(** [func respondJSON(w http.ResponseWriter, status int, v any) error] *)
Definition respondJSON (status : Z) (v : any) : M (option error) :=
  w_call (Header_Set "Content-Type" "application/json") ;;
  w_call (WriteHeader status) ;;
  json_Encode v.

(** ** The handlers registered in [main] *)

(** ["/health"] *)
Definition health (r : Request) : M unit :=
  w_call (WriteHeader StatusOK).

(** ["POST /todos"] *)
Definition post_todos (r : Request) : M unit :=
  '(todo, err) ← decodeJSON r ;
  match err with
  | Some err => http_Error (Error err) StatusBadRequest
  | None =>
      u ← uuid_New ;
      let todo := set_ID (UUID_String u) todo in
      t ← time_Now ;
      let todo := set_CreatedAt t todo in
      t ← time_Now ;
      let todo := set_UpdatedAt t todo in
      let todo := set_Status StatusPending todo in
      l ← get_todos ;
      set_todos (l ++ [todo]) ;;
      err ← respondJSON StatusCreated (any_Todo todo) ;
      match err with
      | Some err => http_Error (Error err) StatusInternalServerError
      | None => mret tt
      end
  end.

(** ["GET /todos"] *)
Definition get_todos_handler (r : Request) : M unit :=
  l ← get_todos ;
  err ← respondJSON StatusOK (any_Todos l) ;
  match err with
  | Some err => http_Error (Error err) StatusInternalServerError
  | None => mret tt
  end.

(** How the [for ... range] loop of the update handler is left: by running
    off the end or by [break] (with the value of [found]), or by the
    [return] after a failed response. *)
Inductive LoopExit :=
| loop_done (found : bool)
| loop_return.

(** [for i, todo := range todos { if todo.ID == id { ... break } }].
    [rest] is what is left of the slice the loop ranges over, [i] the index
    of its head. *)
Fixpoint range_todos (id : string) (update : StatusUpdate) (now : Time)
    (i : nat) (rest : list Todo) : M LoopExit :=
  match rest with
  | [] => mret (loop_done false)
  | todo :: rest' =>
      if String.eqb (ID todo) id then
        let todo := set_Status (update_Status update) todo in
        let todo := set_UpdatedAt now todo in
        let todo :=
          if String.eqb (update_Status update) StatusCompleted
          then set_CompletedAt (Some now) todo
          else todo in
        store_index i todo ;;
        err ← respondJSON StatusOK (any_Todo todo) ;
        match err with
        | Some err =>
            http_Error (Error err) StatusInternalServerError ;;
            mret loop_return
        | None => mret (loop_done true)
        end
      else range_todos id update now (S i) rest'
  end.

(** ["PATCH /todos/"] *)
Definition patch_todos (r : Request) : M unit :=
  id ← slice_from (String.length "/todos/") (URL_Path r) ;
  '(update, err) ← decodeJSON r ;
  match err with
  | Some err => http_Error (Error err) StatusBadRequest
  | None =>
      now ← time_Now ;
      l ← get_todos ;
      exit ← range_todos id update now 0 l ;
      match exit with
      | loop_return => mret tt
      | loop_done found =>
          if negb found
          then http_Error "Todo not found" StatusNotFound
          else mret tt
      end
  end.

(** ** Serving requests *)

(** The four patterns registered with [http.HandleFunc]. *)
Inductive Route := GET_health | POST_todos | GET_todos | PATCH_todos.

(** One request as the server dispatches it: the pattern it matched, the
    request itself, and whether writing to its connection fails. *)
Record Call := mkCall {
  route : Route;
  request : Request;
  conn_error : option error
}.

Definition handler (c : Call) : M unit :=
  match route c with
  | GET_health => health (request c)
  | POST_todos => post_todos (request c)
  | GET_todos => get_todos_handler (request c)
  | PATCH_todos => patch_todos (request c)
  end.

(** A request starts with an open body and an untouched response writer. *)
Definition accept (c : Call) (s : State) : State :=
  mkState (todos s) (ticks s) (draws s) false (conn_error c) [].

(** The server recovers a panicking handler; the process state stays as the
    handler left it. *)
Definition serve (s : State) (c : Call) : State :=
  final (handler c (accept c s)).

Definition run (cs : list Call) (s : State) : State := fold_left serve cs s.

(** The decoded body of a request that creates a todo: a request to
    ["POST /todos"] whose body decodes. *)
Definition created_by (c : Call) : option Todo :=
  match route c with
  | POST_todos =>
      match json_Decode (Body (request c)) (zero : Todo) with
      | (v, None) => Some v
      | (_, Some _) => None
      end
  | _ => None
  end.

(** What one request does to the store: nothing, an append, or the update
    of the first record with the identifier asked for. *)
Inductive Effect (s : State) (c : Call) (s' : State) : Prop :=
| effect_none :
    todos s' = todos s → draws s' = draws s →
    (ticks s ≤ ticks s' ≤ S (ticks s))%nat →
    Effect s c s'
| effect_append (v : Todo) :
    route c = POST_todos →
    json_Decode (Body (request c)) zero = (v, None) →
    todos s' = todos s ++ [created rt v s] →
    draws s' = S (draws s) → ticks s' = S (S (ticks s)) →
    Effect s c s'
| effect_update id (u : StatusUpdate) l1 t l2 :
    route c = PATCH_todos →
    string_from (String.length "/todos/") (URL_Path (request c)) = Some id →
    json_Decode (Body (request c)) zero = (u, None) →
    todos s = l1 ++ t :: l2 →
    Forall (λ x, ID x ≠ id) l1 → ID t = id →
    todos s' = l1 ++ updated u (clock rt (ticks s)) t :: l2 →
    draws s' = draws s → ticks s' = S (ticks s) →
    Effect s c s'.

End Handlers.

(** ** A concrete environment for the examples *)

Module Sample.

Definition dq : string := String "034"%char "".
Definition quoted (s : string) : string := dq +:+ s +:+ dq.
Definition member (k v : string) : string := quoted k +:+ ":" +:+ quoted v.

(** The request bodies of the examples, as the bytes on the wire. *)
Definition body_AB : string :=
  "{" +:+ member "title" "A" +:+ "," +:+ member "description" "B" +:+ "}".
Definition body_milk : string :=
  "{" +:+ member "title" "Buy milk" +:+ "," +:+ member "description" "2%" +:+ "}".
Definition body_full : string :=
  "{" +:+ member "id" "mine" +:+ "," +:+ member "title" "A" +:+ "," +:+
  member "status" "completed" +:+ "," +:+
  member "completed_at" "2020-01-01T00:00:00Z" +:+ "}".
Definition body_status (st : string) : string := "{" +:+ member "status" st +:+ "}".
Definition body_text : string := "not json".

(** What [encoding/json] makes of those bodies; this table knows no other
    body and reports the syntax error of [body_text] for all the rest. *)
Definition syntax_error : error :=
  errorString "invalid character 'o' in literal null (expecting 'u')".

Definition decode_Todo (body : string) (v : Todo) : Todo * option error :=
  if String.eqb body body_AB then
    (mkTodo (ID v) "A" "B" (Status v) (CreatedAt v) (UpdatedAt v) (CompletedAt v), None)
  else if String.eqb body body_milk then
    (mkTodo (ID v) "Buy milk" "2%" (Status v) (CreatedAt v) (UpdatedAt v) (CompletedAt v), None)
  else if String.eqb body body_full then
    (mkTodo "mine" "A" (Description v) "completed" (CreatedAt v) (UpdatedAt v)
            (Some 1577836800), None)
  else (v, Some syntax_error).

Definition decode_StatusUpdate (body : string) (v : StatusUpdate)
    : StatusUpdate * option error :=
  if String.eqb body (body_status "completed") then (mkStatusUpdate "completed", None)
  else if String.eqb body (body_status "pending") then (mkStatusUpdate "pending", None)
  else if String.eqb body (body_status "archived") then (mkStatusUpdate "archived", None)
  else (v, Some syntax_error).

#[export] Instance target_Todo : JSONTarget Todo := decode_Todo.
#[export] Instance target_StatusUpdate : JSONTarget StatusUpdate :=
  decode_StatusUpdate.

(** A clock that advances by one unit per reading, and version-4
    identifiers that differ in their last bytes. *)
Definition rt : Runtime :=
  {| clock := λ n, 1767225600 + Z.of_nat n;
     entropy := λ n, (0x123e4567e89b42d3a456426614174000 + N.of_nat n)%N |}.

(** An identifier source that yields the same value at every draw. *)
Definition rt_repeating : Runtime :=
  {| clock := clock rt;
     entropy := λ _, 0x123e4567e89b42d3a456426614174000%N |}.

(** A clock that steps back by one unit at every reading. *)
Definition rt_backwards : Runtime :=
  {| clock := λ n, 1767225600 - Z.of_nat n;
     entropy := entropy rt |}.

Definition id0 : string := "123e4567-e89b-42d3-a456-426614174000".
Definition id1 : string := "123e4567-e89b-42d3-a456-426614174001".

Definition post (body : string) : Call :=
  mkCall POST_todos (mkRequest "/todos" body) None.
Definition patch (id body : string) : Call :=
  mkCall PATCH_todos (mkRequest ("/todos/" +:+ id) body) None.
Definition list_all : Call := mkCall GET_todos (mkRequest "/todos" "") None.

Definition broken_pipe : error := errorString "write: broken pipe".
Definition post_on_broken_connection (body : string) : Call :=
  mkCall POST_todos (mkRequest "/todos" body) (Some broken_pipe).

(** The store after two creates. *)
Definition two_todos : State := run rt [post body_AB; post body_full] initial.

End Sample.

(** ** Reading a response *)

(** The status code the client receives: that of the first call that
    writes the header. *)
Fixpoint status_sent (cs : list WCall) : option Z :=
  match cs with
  | [] => None
  | WriteHeader code :: _ => Some code
  | http_Error_call _ code :: _ => Some code
  | _ :: cs' => status_sent cs'
  end.

(** The calls of [respondJSON status v], followed by the handler's reply to
    a failed encoding. *)
Definition responded (status : Z) (v : any) (failure : option error)
    : list WCall :=
  [Header_Set "Content-Type" "application/json"; WriteHeader status; Encode v]
  ++ match failure with
     | Some err => [http_Error_call (Error err) StatusInternalServerError]
     | None => []
     end.

(** * Properties *)

Ltac run_monad :=
  repeat (unfold mbind, M_bind, mret, M_ret, get_todos, set_todos, w_call,
          Body_Close, time_Now, uuid_New, json_Encode, http_Error,
          respondJSON; simpl).

Section Steps.

Context (rt : Runtime).
Context `{TT : !JSONTarget Todo, TU : !JSONTarget StatusUpdate}.

Lemma bind_run {A B} (m : M A) (f : A → M B) s :
  (m ≫= f) s = match m s with Ret a s' => f a s' | Panic s' => Panic s' end.
Proof. reflexivity. Qed.

Lemma respondJSON_calls status v s :
  respondJSON status v s =
  Ret (write_error s)
      (mkState (todos s) (ticks s) (draws s) (closed s) (write_error s)
         (calls s ++ [Header_Set "Content-Type" "application/json";
                      WriteHeader status; Encode v])).
Proof. run_monad. by rewrite <- !app_assoc. Qed.

Lemma decodeJSON_ok {T} `{GT : !GoType T, JT : !JSONTarget T} (r : Request) (v : T) s :
  json_Decode (Body r) zero = (v, None) →
  decodeJSON r s =
  Ret (v, None) (mkState (todos s) (ticks s) (draws s) true (write_error s) (calls s)).
Proof. intros H. unfold decodeJSON. rewrite H. by run_monad. Qed.

Lemma decodeJSON_err {T} `{GT : !GoType T, JT : !JSONTarget T} (r : Request) (v : T) err s :
  json_Decode (Body r) zero = (v, Some err) →
  decodeJSON r s =
  Ret (v, Some (fmt_Errorf_w "failed to decode request body: " err)) s.
Proof. intros H. unfold decodeJSON. rewrite H. by run_monad. Qed.

Lemma post_todos_ok r (v : Todo) s :
  json_Decode (Body r) zero = (v, None) →
  post_todos rt r s =
  Ret tt (mkState (todos s ++ [created rt v s]) (S (S (ticks s))) (S (draws s))
            true (write_error s)
            (calls s ++ responded StatusCreated (any_Todo (created rt v s)) (write_error s))).
Proof.
  intros H. unfold post_todos.
  rewrite bind_run, (decodeJSON_ok _ _ _ H).
  run_monad. unfold responded, created.
  destruct (write_error s); simpl; by rewrite <- ?app_assoc.
Qed.

Lemma post_todos_err r (v : Todo) err s :
  json_Decode (Body r) zero = (v, Some err) →
  post_todos rt r s =
  Ret tt (mkState (todos s) (ticks s) (draws s) (closed s) (write_error s)
            (calls s ++ [http_Error_call
                           ("failed to decode request body: " +:+ Error err)
                           StatusBadRequest])).
Proof.
  intros H. unfold post_todos.
  rewrite bind_run, (decodeJSON_err _ _ _ _ H).
  by run_monad.
Qed.

Lemma get_todos_handler_calls r s :
  get_todos_handler r s =
  Ret tt (mkState (todos s) (ticks s) (draws s) (closed s) (write_error s)
            (calls s ++ responded StatusOK (any_Todos (todos s)) (write_error s))).
Proof.
  unfold get_todos_handler. run_monad. unfold responded.
  destruct (write_error s); simpl; by rewrite <- ?app_assoc.
Qed.

Lemma string_from_app (p s : string) :
  string_from (String.length p) (p +:+ s) = Some s.
Proof. induction p as [|c p IH]; simpl; auto. Qed.

Lemma first_match (id : string) (l : list Todo) :
  Forall (λ x, ID x ≠ id) l ∨
  ∃ l1 t l2, l = l1 ++ t :: l2 ∧ Forall (λ x, ID x ≠ id) l1 ∧ ID t = id.
Proof.
  induction l as [|x l IH]; [by left|].
  destruct (decide (ID x = id)) as [Heq|Hne].
  - right. by exists [], x, l.
  - destruct IH as [IH|(l1 & t & l2 & -> & Hl1 & Ht)].
    + left. by constructor.
    + right. exists (x :: l1), t, l2. repeat split; auto.
Qed.

Lemma range_todos_miss id u now i rest s :
  Forall (λ x, ID x ≠ id) rest →
  range_todos id u now i rest s = Ret (loop_done false) s.
Proof.
  intros H. revert i. induction H as [|x rest Hx _ IH]; intros i; simpl; [done|].
  apply String.eqb_neq in Hx. rewrite Hx. apply IH.
Qed.

Lemma range_todos_hit id u now l1 t l2 : ∀ pre s,
  todos s = pre ++ l1 ++ t :: l2 →
  Forall (λ x, ID x ≠ id) l1 → ID t = id →
  range_todos id u now (length pre) (l1 ++ t :: l2) s =
  Ret (match write_error s with Some _ => loop_return | None => loop_done true end)
      (mkState (pre ++ l1 ++ updated u now t :: l2) (ticks s) (draws s)
         (closed s) (write_error s)
         (calls s ++ responded StatusOK (any_Todo (updated u now t)) (write_error s))).
Proof.
  induction l1 as [|x l1 IH]; intros pre s Hs Hl1 Ht; simpl.
  - apply String.eqb_eq in Ht. rewrite Ht.
    rewrite bind_run. unfold store_index. rewrite Hs.
    destruct (decide _) as [_|Hge];
      [|exfalso; apply Hge; rewrite length_app; simpl; lia].
    replace (<[length pre:=_]> (pre ++ t :: l2)) with
      (pre ++ updated u now t :: l2).
    2:{ rewrite insert_app_r_alt, Nat.sub_diag by lia.
        simpl. do 2 f_equal. unfold updated.
        by destruct (String.eqb (update_Status u) StatusCompleted). }
    run_monad. unfold responded.
    replace (set_UpdatedAt now (set_Status (update_Status u) t)) with
      (mkTodo (ID t) (Title t) (Description t) (update_Status u) (CreatedAt t)
         now (CompletedAt t)) by done.
    unfold updated.
    destruct (write_error s), (String.eqb (update_Status u) StatusCompleted);
      simpl; by rewrite <- ?app_assoc.
  - inversion Hl1 as [|? ? Hx Hl1']; subst.
    apply String.eqb_neq in Hx. rewrite Hx.
    specialize (IH (pre ++ [x]) s).
    rewrite length_app in IH. simpl in IH.
    replace (length pre + 1)%nat with (S (length pre)) in IH by lia.
    rewrite <- !app_assoc in IH. simpl in IH. by apply IH.
Qed.

Lemma patch_todos_short r s :
  string_from (String.length "/todos/") (URL_Path r) = None →
  patch_todos rt r s = Panic s.
Proof.
  intros H. unfold patch_todos. rewrite bind_run. unfold slice_from.
  by rewrite H.
Qed.

Lemma patch_todos_err r id (u : StatusUpdate) err s :
  string_from (String.length "/todos/") (URL_Path r) = Some id →
  json_Decode (Body r) zero = (u, Some err) →
  patch_todos rt r s =
  Ret tt (mkState (todos s) (ticks s) (draws s) (closed s) (write_error s)
            (calls s ++ [http_Error_call
                           ("failed to decode request body: " +:+ Error err)
                           StatusBadRequest])).
Proof.
  intros Hp H. unfold patch_todos. rewrite bind_run. unfold slice_from.
  rewrite Hp.
  rewrite bind_run, (decodeJSON_err _ _ _ _ H).
  by run_monad.
Qed.

Lemma patch_todos_miss r id (u : StatusUpdate) s :
  string_from (String.length "/todos/") (URL_Path r) = Some id →
  json_Decode (Body r) zero = (u, None) →
  Forall (λ x, ID x ≠ id) (todos s) →
  patch_todos rt r s =
  Ret tt (mkState (todos s) (S (ticks s)) (draws s) true (write_error s)
            (calls s ++ [http_Error_call "Todo not found" StatusNotFound])).
Proof.
  intros Hp H Hmiss. unfold patch_todos. rewrite bind_run. unfold slice_from.
  rewrite Hp.
  rewrite bind_run, (decodeJSON_ok _ _ _ H).
  rewrite bind_run. unfold time_Now. rewrite bind_run. unfold get_todos.
  rewrite bind_run. simpl todos.
  rewrite range_todos_miss by done.
  by run_monad.
Qed.

Lemma patch_todos_hit r id (u : StatusUpdate) s l1 t l2 :
  string_from (String.length "/todos/") (URL_Path r) = Some id →
  json_Decode (Body r) zero = (u, None) →
  todos s = l1 ++ t :: l2 →
  Forall (λ x, ID x ≠ id) l1 → ID t = id →
  patch_todos rt r s =
  Ret tt (mkState (l1 ++ updated u (clock rt (ticks s)) t :: l2)
            (S (ticks s)) (draws s) true (write_error s)
            (calls s ++ responded StatusOK
                          (any_Todo (updated u (clock rt (ticks s)) t))
                          (write_error s))).
Proof.
  intros Hp H Hs Hl1 Ht. unfold patch_todos. rewrite bind_run. unfold slice_from.
  rewrite Hp.
  rewrite bind_run, (decodeJSON_ok _ _ _ H).
  rewrite bind_run. unfold time_Now. rewrite bind_run. unfold get_todos.
  rewrite bind_run. simpl todos. rewrite Hs.
  rewrite (range_todos_hit id u _ l1 t l2 []) by done.
  simpl. by destruct (write_error s).
Qed.

(** *** One request, as the server runs it *)

Lemma serve_post_ok s c (v : Todo) :
  route c = POST_todos →
  json_Decode (Body (request c)) zero = (v, None) →
  handler rt c (accept c s) =
  Ret tt (mkState (todos s ++ [created rt v s]) (S (S (ticks s))) (S (draws s))
            true (conn_error c)
            (responded StatusCreated (any_Todo (created rt v s)) (conn_error c))).
Proof.
  intros Hr H. unfold handler. rewrite Hr.
  by rewrite (post_todos_ok _ _ _ H).
Qed.

Lemma serve_post_err s c (v : Todo) err :
  route c = POST_todos →
  json_Decode (Body (request c)) zero = (v, Some err) →
  handler rt c (accept c s) =
  Ret tt (mkState (todos s) (ticks s) (draws s) false (conn_error c)
            [http_Error_call ("failed to decode request body: " +:+ Error err)
               StatusBadRequest]).
Proof.
  intros Hr H. unfold handler. rewrite Hr.
  by rewrite (post_todos_err _ _ _ _ H).
Qed.

Lemma serve_patch_err s c id (u : StatusUpdate) err :
  route c = PATCH_todos →
  string_from (String.length "/todos/") (URL_Path (request c)) = Some id →
  json_Decode (Body (request c)) zero = (u, Some err) →
  handler rt c (accept c s) =
  Ret tt (mkState (todos s) (ticks s) (draws s) false (conn_error c)
            [http_Error_call ("failed to decode request body: " +:+ Error err)
               StatusBadRequest]).
Proof.
  intros Hr Hp H. unfold handler. rewrite Hr.
  by rewrite (patch_todos_err _ _ _ _ _ Hp H).
Qed.

Lemma serve_patch_miss s c id (u : StatusUpdate) :
  route c = PATCH_todos →
  string_from (String.length "/todos/") (URL_Path (request c)) = Some id →
  json_Decode (Body (request c)) zero = (u, None) →
  Forall (λ x, ID x ≠ id) (todos s) →
  handler rt c (accept c s) =
  Ret tt (mkState (todos s) (S (ticks s)) (draws s) true (conn_error c)
            [http_Error_call "Todo not found" StatusNotFound]).
Proof.
  intros Hr Hp H Hmiss. unfold handler. rewrite Hr.
  by rewrite (patch_todos_miss _ _ _ _ Hp H).
Qed.

Lemma serve_patch_hit s c id (u : StatusUpdate) l1 t l2 :
  route c = PATCH_todos →
  string_from (String.length "/todos/") (URL_Path (request c)) = Some id →
  json_Decode (Body (request c)) zero = (u, None) →
  todos s = l1 ++ t :: l2 →
  Forall (λ x, ID x ≠ id) l1 → ID t = id →
  handler rt c (accept c s) =
  Ret tt (mkState (l1 ++ updated u (clock rt (ticks s)) t :: l2)
            (S (ticks s)) (draws s) true (conn_error c)
            (responded StatusOK (any_Todo (updated u (clock rt (ticks s)) t))
               (conn_error c))).
Proof.
  intros Hr Hp H Hs Hl1 Ht. unfold handler. rewrite Hr.
  by rewrite (patch_todos_hit _ _ _ _ l1 t l2 Hp H).
Qed.

Lemma serve_effect s c : Effect rt s c (serve rt s c).
Proof.
  unfold serve. destruct (route c) eqn:Hr.
  - apply effect_none; unfold handler; rewrite Hr; simpl; auto; lia.
  - destruct (json_Decode (Body (request c)) (zero : Todo)) as [v [err|]] eqn:H.
    + rewrite (serve_post_err _ _ _ _ Hr H). apply effect_none; simpl; auto; lia.
    + rewrite (serve_post_ok _ _ _ Hr H). by eapply effect_append.
  - unfold handler. rewrite Hr, get_todos_handler_calls.
    apply effect_none; simpl; auto; lia.
  - destruct (string_from (String.length "/todos/") (URL_Path (request c)))
      as [id|] eqn:Hp.
    2:{ unfold handler. rewrite Hr, (patch_todos_short _ _ Hp).
        apply effect_none; simpl; auto; lia. }
    destruct (json_Decode (Body (request c)) (zero : StatusUpdate))
      as [u [err|]] eqn:H.
    { rewrite (serve_patch_err _ _ _ _ _ Hr Hp H).
      apply effect_none; simpl; auto; lia. }
    destruct (first_match id (todos s)) as [Hmiss|(l1 & t & l2 & Hs & Hl1 & Ht)].
    + rewrite (serve_patch_miss _ _ _ _ Hr Hp H Hmiss).
      apply effect_none; simpl; auto; lia.
    + rewrite (serve_patch_hit _ _ _ _ _ _ _ Hr Hp H Hs Hl1 Ht).
      by eapply effect_update.
Qed.

Lemma run_snoc cs c s : run rt (cs ++ [c]) s = serve rt (run rt cs s) c.
Proof. unfold run. by rewrite fold_left_app. Qed.

End Steps.

(** ** The update handler *)

Section Update.

Context (rt : Runtime).
Context `{TT : !JSONTarget Todo, TU : !JSONTarget StatusUpdate}.

Lemma update_is_insert (l1 l2 : list Todo) (t t' : Todo) :
  l1 ++ t' :: l2 = <[length l1 := t']> (l1 ++ t :: l2).
Proof. rewrite insert_app_r_alt, Nat.sub_diag by lia. done. Qed.

Lemma updated_fields u now t :
  ID (updated u now t) = ID t ∧ Title (updated u now t) = Title t ∧
  Description (updated u now t) = Description t ∧
  CreatedAt (updated u now t) = CreatedAt t ∧
  Status (updated u now t) = update_Status u ∧
  UpdatedAt (updated u now t) = now.
Proof. by unfold updated. Qed.

Lemma status_sent_responded status v b :
  status_sent (responded status v b) = Some status.
Proof. done. Qed.

(** C1. The update handler, given the identifier in the path, the decoded
    new status and the time [now] it reads from the clock, scans the store
    in order.  Either the store splits as [l1 ++ t :: l2] where [t] is the
    first record with that identifier, and then [t] is replaced by the
    record with [status = newStatus], [updated_at = now] and [completed_at]
    set to [now] exactly when the new status is [completed] (left as it was
    otherwise), and the response is 200 with that record; or no record
    matches, the store is left as it was and the response is 404. *)
Theorem update_status_first_match (s : State) (c : Call) (id : string)
    (u : StatusUpdate) :
  route c = PATCH_todos →
  URL_Path (request c) = "/todos/" +:+ id →
  json_Decode (Body (request c)) zero = (u, None) →
  let now := clock rt (ticks s) in
  ∃ s', handler rt c (accept c s) = Ret tt s' ∧
    ((∃ l1 t l2,
        todos s = l1 ++ t :: l2 ∧ Forall (λ x, ID x ≠ id) l1 ∧ ID t = id ∧
        let t' := mkTodo (ID t) (Title t) (Description t) (update_Status u)
                    (CreatedAt t) now
                    (if String.eqb (update_Status u) StatusCompleted
                     then Some now else CompletedAt t) in
        todos s' = l1 ++ t' :: l2 ∧
        calls s' = responded StatusOK (any_Todo t') (conn_error c) ∧
        status_sent (calls s') = Some StatusOK)
     ∨ (Forall (λ x, ID x ≠ id) (todos s) ∧
        todos s' = todos s ∧
        calls s' = [http_Error_call "Todo not found" StatusNotFound] ∧
        status_sent (calls s') = Some StatusNotFound)).
Proof.
  intros Hr Hpath H now.
  assert (Hp : string_from (String.length "/todos/") (URL_Path (request c)) = Some id)
    by (rewrite Hpath; apply string_from_app).
  destruct (first_match id (todos s)) as [Hmiss|(l1 & t & l2 & Hs & Hl1 & Ht)].
  - eexists. split; [by apply (serve_patch_miss rt s c id u)|].
    right. by simpl.
  - eexists. split; [by apply (serve_patch_hit rt s c id u l1 t l2)|].
    left. exists l1, t, l2. by simpl.
Qed.

(** C10. When an update to [completed] finds its target, the record it
    leaves in the store (and sends back) has [completed_at] present and
    equal to its [updated_at]: both are the one reading of the clock taken
    by the handler. *)
Theorem completing_stamps_one_time (s : State) (c : Call) (id : string)
    (u : StatusUpdate) :
  route c = PATCH_todos →
  URL_Path (request c) = "/todos/" +:+ id →
  json_Decode (Body (request c)) zero = (u, None) →
  update_Status u = StatusCompleted →
  id ∈ ID <$> todos s →
  ∃ i t t',
    todos s !! i = Some t ∧ ID t = id ∧
    todos (serve rt s c) !! i = Some t' ∧
    Encode (any_Todo t') ∈ calls (serve rt s c) ∧
    ID t' = id ∧ Status t' = StatusCompleted ∧
    UpdatedAt t' = clock rt (ticks s) ∧
    CompletedAt t' = Some (UpdatedAt t').
Proof.
  intros Hr Hpath H Hu Hin.
  assert (Hp : string_from (String.length "/todos/") (URL_Path (request c)) = Some id)
    by (rewrite Hpath; apply string_from_app).
  destruct (first_match id (todos s)) as [Hmiss|(l1 & t & l2 & Hs & Hl1 & Ht)].
  { apply list_elem_of_fmap in Hin as (x & Hx & Hxin).
    rewrite Forall_forall in Hmiss. by destruct (Hmiss x Hxin). }
  exists (length l1), t, (updated u (clock rt (ticks s)) t).
  unfold serve. rewrite (serve_patch_hit rt s c id u l1 t l2) by done. simpl.
  split; [by rewrite Hs, list_lookup_middle|].
  split; [done|].
  split; [by rewrite list_lookup_middle|].
  split; [apply list_elem_of_In; simpl; auto|].
  unfold updated. simpl. rewrite Hu. by simpl.
Qed.

(** C6. An update changes nothing but the [status], [updated_at] and
    [completed_at] of the one record it matches: the store keeps its
    length, every record keeps its [id], [title], [description] and
    [created_at], every record with another identifier is left as it was,
    at most one position changes, and a [completed_at] that is set stays
    set, an update to a status other than [completed] leaving it as it
    was. *)
Theorem update_frame (s : State) (c : Call) (id : string) (u : StatusUpdate) :
  route c = PATCH_todos →
  URL_Path (request c) = "/todos/" +:+ id →
  json_Decode (Body (request c)) zero = (u, None) →
  let s' := serve rt s c in
  length (todos s') = length (todos s) ∧
  (∀ i t, todos s !! i = Some t →
     ∃ t', todos s' !! i = Some t' ∧
       ID t' = ID t ∧ Title t' = Title t ∧
       Description t' = Description t ∧ CreatedAt t' = CreatedAt t ∧
       (is_Some (CompletedAt t) → is_Some (CompletedAt t')) ∧
       (update_Status u ≠ StatusCompleted → CompletedAt t' = CompletedAt t) ∧
       (ID t ≠ id → t' = t)) ∧
  (∀ i j, todos s' !! i ≠ todos s !! i → todos s' !! j ≠ todos s !! j → i = j).
Proof.
  intros Hr Hpath H s'.
  assert (Hp : string_from (String.length "/todos/") (URL_Path (request c)) = Some id)
    by (rewrite Hpath; apply string_from_app).
  destruct (first_match id (todos s)) as [Hmiss|(l1 & t0 & l2 & Hs & Hl1 & Ht)].
  { assert (Hsame : todos s' = todos s).
    { unfold s', serve. by rewrite (serve_patch_miss rt s c id u). }
    rewrite Hsame. split; [done|]. split; [|congruence].
    intros i t Hi. exists t. by repeat split. }
  assert (Hnew : todos s' =
                 <[length l1 := updated u (clock rt (ticks s)) t0]> (todos s)).
  { unfold s', serve. rewrite (serve_patch_hit rt s c id u l1 t0 l2) by done.
    simpl. rewrite Hs. apply update_is_insert. }
  rewrite Hnew. split; [apply length_insert|]. split.
  - intros i t Hi. destruct (decide (i = length l1)) as [->|Hne].
    + assert (t = t0) as -> by (rewrite Hs, list_lookup_middle in Hi; congruence).
      exists (updated u (clock rt (ticks s)) t0).
      split; [apply list_lookup_insert_eq; by eapply lookup_lt_Some|].
      unfold updated; simpl. repeat split; try done.
      * intros Hc. destruct (String.eqb _ _); [by eexists | done].
      * intros Hu. apply String.eqb_neq in Hu. by rewrite Hu.
    + exists t. split; [by rewrite list_lookup_insert_ne|]. by repeat split.
  - intros i j Hi Hj.
    destruct (decide (i = length l1)) as [->|Hi'];
      [|by rewrite list_lookup_insert_ne in Hi].
    destruct (decide (j = length l1)) as [->|Hj'];
      [done|by rewrite list_lookup_insert_ne in Hj].
Qed.

End Update.

(** ** The create handler and the decode helper *)

Section Create.

Context (rt : Runtime).
Context `{TT : !JSONTarget Todo, TU : !JSONTarget StatusUpdate}.

Lemma UUID_String_nonempty (u : UUID) : UUID_String u ≠ "".
Proof. unfold UUID_String, hex_bytes, hex_byte. simpl. discriminate. Qed.

Lemma UUID_String_length (u : UUID) : String.length (UUID_String u) = 36%nat.
Proof. reflexivity. Qed.

Lemma completed_at_field (t : Todo) :
  "completed_at" ∈ json_fields t ↔ is_Some (CompletedAt t).
Proof.
  unfold json_fields. destruct (CompletedAt t) as [x|]; split.
  - by eexists.
  - intros _. apply list_elem_of_In. simpl. tauto.
  - intros Hin. apply list_elem_of_In in Hin. simpl in Hin.
    exfalso. intuition discriminate.
  - by intros [? ?].
Qed.

(** C2, as the code has it.  For every create request whose body decodes,
    the record stored and sent back (with status 201) has a non-empty [id],
    [status = pending], and [created_at] and [updated_at] equal to two
    successive readings of the clock; when the decoded body carries no
    [completed_at], the record has none and is encoded without the field. *)
Theorem create_result (s : State) (c : Call) (v : Todo) :
  route c = POST_todos →
  json_Decode (Body (request c)) zero = (v, None) →
  ∃ t s', handler rt c (accept c s) = Ret tt s' ∧
    todos s' = todos s ++ [t] ∧
    calls s' = responded StatusCreated (any_Todo t) (conn_error c) ∧
    status_sent (calls s') = Some StatusCreated ∧
    ID t ≠ "" ∧ Status t = StatusPending ∧
    CreatedAt t = clock rt (ticks s) ∧
    UpdatedAt t = clock rt (S (ticks s)) ∧
    (CompletedAt v = None →
     CompletedAt t = None ∧ "completed_at" ∉ json_fields t).
Proof.
  intros Hr H. exists (created rt v s). eexists.
  split; [by apply serve_post_ok|]. simpl.
  do 3 (split; [done|]). split; [apply UUID_String_nonempty|].
  do 3 (split; [done|]).
  intros Hnone. split; [done|].
  intros Hin%completed_at_field. simpl in Hin.
  rewrite Hnone in Hin. by destruct Hin.
Qed.

(** On a body that does not decode, [decodeJSON] returns an error whose
    message is the prefix followed by that of the parse error, which it
    wraps, and leaves the state, the request body with it, as it found it:
    the deferred [Close] is never registered. *)
Lemma decodeJSON_failure {T} `{GT : !GoType T, JT : !JSONTarget T} (r : Request)
    (v : T) (err : error) (s : State) :
  json_Decode (Body r) zero = (v, Some err) →
  ∃ e, decodeJSON r s = Ret (v, Some e) s ∧
    Unwrap e = Some err ∧
    Error e = "failed to decode request body: " +:+ Error err.
Proof.
  intros H. eexists. split; [by apply decodeJSON_err|]. by simpl.
Qed.

(** On a body that decodes, [decodeJSON] returns the value without an
    error and has closed the request body. *)
Lemma decodeJSON_success {T} `{GT : !GoType T, JT : !JSONTarget T} (r : Request)
    (v : T) (s : State) :
  json_Decode (Body r) zero = (v, None) →
  ∃ s', decodeJSON r s = Ret (v, None) s' ∧ closed s' = true ∧
    todos s' = todos s ∧ calls s' = calls s.
Proof.
  intros H. eexists. split; [by apply decodeJSON_ok|]. by simpl.
Qed.

End Create.

(** ** The store over a run of the server *)

Section Runs.

Context (rt : Runtime).
Context `{TT : !JSONTarget Todo, TU : !JSONTarget StatusUpdate}.

(** The identifiers in the store are the identifiers drawn so far, in the
    order they were drawn. *)
Lemma run_ids (cs : list Call) :
  let s := run rt cs initial in
  ID <$> todos s = (λ k, UUID_String (entropy rt k)) <$> seq 0 (draws s).
Proof.
  induction cs as [|c cs IH] using rev_ind; [done|].
  rewrite run_snoc. simpl in *.
  destruct (serve_effect rt (run rt cs initial) c)
    as [Ht Hd _|v _ _ Ht Hd _|id u l1 t l2 _ _ _ Hs _ _ Ht Hd _].
  - by rewrite Ht, Hd.
  - rewrite Ht, Hd, fmap_app, IH, seq_S, fmap_app. done.
  - rewrite Ht, Hd, <- IH, Hs, !fmap_app. done.
Qed.

Lemma clock_mono_le (i j : nat) :
  (∀ n, clock rt n ≤ clock rt (S n)) → (i ≤ j)%nat → clock rt i ≤ clock rt j.
Proof.
  intros Hmono Hle. induction Hle as [|j _ IH]; [lia|].
  specialize (Hmono j). lia.
Qed.

(** On a clock that never runs backwards no record is created later than
    it was last updated, nor later than the next reading of the clock. *)
Lemma run_times (cs : list Call) :
  (∀ n, clock rt n ≤ clock rt (S n)) →
  let s := run rt cs initial in
  Forall (λ t, CreatedAt t ≤ UpdatedAt t ∧ CreatedAt t ≤ clock rt (ticks s))
         (todos s).
Proof.
  intros Hmono. induction cs as [|c cs IH] using rev_ind; [by constructor|].
  rewrite run_snoc. simpl in *.
  set (s := run rt cs initial) in *.
  assert (Hlater : ∀ n t, (ticks s ≤ n)%nat →
            CreatedAt t ≤ UpdatedAt t ∧ CreatedAt t ≤ clock rt (ticks s) →
            CreatedAt t ≤ UpdatedAt t ∧ CreatedAt t ≤ clock rt n).
  { intros n t Hn [? ?]. pose proof (clock_mono_le _ _ Hmono Hn). lia. }
  destruct (serve_effect rt s c)
    as [Ht _ Hk|v _ _ Ht _ Hk|id u l1 t l2 _ _ _ Hs _ _ Ht _ Hk].
  - rewrite Ht. eapply Forall_impl; [exact IH|].
    intros t. apply Hlater. lia.
  - rewrite Ht, Hk. apply Forall_app. split.
    + eapply Forall_impl; [exact IH|]. intros t. apply Hlater. lia.
    + constructor; [|constructor]. unfold created; simpl.
      pose proof (Hmono (ticks s)). pose proof (Hmono (S (ticks s))). lia.
  - rewrite Ht, Hk. rewrite Hs in IH.
    apply Forall_app in IH as [IH1 IH2]. apply Forall_cons in IH2 as [[_ Hc] IH2].
    apply Forall_app. split; [|constructor].
    + eapply Forall_impl; [exact IH1|]. intros x. apply Hlater. lia.
    + unfold updated; simpl. pose proof (Hmono (ticks s)). lia.
    + eapply Forall_impl; [exact IH2|]. intros x. apply Hlater. lia.
Qed.

(** Every status in the store is [pending] or was submitted by an update
    request of the run. *)
Lemma run_status (cs : list Call) :
  Forall (λ t, Status t = StatusPending ∨
               ∃ c (u : StatusUpdate), c ∈ cs ∧ route c = PATCH_todos ∧
                 json_Decode (Body (request c)) zero = (u, None) ∧
                 Status t = update_Status u)
         (todos (run rt cs initial)).
Proof.
  induction cs as [|c cs IH] using rev_ind; [by constructor|].
  rewrite run_snoc.
  assert (IH' : Forall (λ t, Status t = StatusPending ∨
               ∃ c' (u : StatusUpdate), c' ∈ cs ++ [c] ∧ route c' = PATCH_todos ∧
                 json_Decode (Body (request c')) zero = (u, None) ∧
                 Status t = update_Status u) (todos (run rt cs initial))).
  { eapply Forall_impl; [exact IH|]. intros t [?|(c' & u & Hin & ?)]; [by left|].
    right. exists c', u. split; [|done]. apply elem_of_app. by left. }
  clear IH.
  destruct (serve_effect rt (run rt cs initial) c)
    as [Ht _ _|v _ _ Ht _ _|id u l1 t l2 Hr _ Hu Hs _ _ Ht _ _].
  - by rewrite Ht.
  - rewrite Ht. apply Forall_app. split; [done|].
    constructor; [by left|constructor].
  - rewrite Ht. rewrite Hs in IH'.
    apply Forall_app in IH' as [IH1 IH2]. apply Forall_cons in IH2 as [_ IH2].
    apply Forall_app. split; [done|]. constructor; [|done].
    right. exists c, u. split; [|done]. apply elem_of_app. right. by apply list_elem_of_singleton.
Qed.

(** C3, as the code has it.  In every reachable store every status is
    [pending], as set at creation, or the status string of an update
    request of the run whose body decoded: the update handler stores what
    it is sent. *)
Theorem stored_status_origin (cs : list Call) (t : Todo) :
  t ∈ todos (run rt cs initial) →
  Status t = StatusPending ∨
  ∃ c (u : StatusUpdate), c ∈ cs ∧ route c = PATCH_todos ∧
    json_Decode (Body (request c)) zero = (u, None) ∧
    Status t = update_Status u.
Proof.
  intros Hin. pose proof (run_status cs) as H.
  rewrite Forall_forall in H. by apply H.
Qed.

(** C7, as the code has it.  When successive readings of the clock never
    decrease, every record of every reachable store has
    [created_at ≤ updated_at]: a create stores two successive readings and
    an update stores a later one.  The handlers compare no readings. *)
Theorem created_before_updated (cs : list Call) (t : Todo) :
  (∀ n, clock rt n ≤ clock rt (S n)) →
  t ∈ todos (run rt cs initial) →
  CreatedAt t ≤ UpdatedAt t.
Proof.
  intros Hmono Hin. pose proof (run_times cs Hmono) as H.
  rewrite Forall_forall in H. by apply H.
Qed.

(** C4, as the code has it.  After any run of the server, a create request
    whose body decodes appends a record whose [id] is the identifier
    generated for it, whose [created_at] and [updated_at] are the clock's
    readings and whose [status] is [pending], whatever the body said about
    these four fields; [title] and [description] are the body's.  The
    identifiers of the store are the identifiers generated so far, in the
    order of creation: the handler compares none of them, so they are
    pairwise distinct when the generated identifiers are, the new [id] then
    being none of those already in the store. *)
Theorem create_overwrites_and_ids_unique (cs : list Call) (c : Call) (v : Todo) :
  let s := run rt cs initial in
  route c = POST_todos →
  json_Decode (Body (request c)) zero = (v, None) →
  ∃ t, todos (serve rt s c) = todos s ++ [t] ∧
    ID t = UUID_String (entropy rt (draws s)) ∧
    CreatedAt t = clock rt (ticks s) ∧
    UpdatedAt t = clock rt (S (ticks s)) ∧
    Status t = StatusPending ∧
    Title t = Title v ∧ Description t = Description v ∧
    ID <$> todos (serve rt s c) =
      (λ k, UUID_String (entropy rt k)) <$> seq 0 (S (draws s)) ∧
    ((∀ i j, (i < j ≤ draws s)%nat →
        UUID_String (entropy rt i) ≠ UUID_String (entropy rt j)) →
     (ID t ∉ (ID <$> todos s)) ∧
     NoDup (ID <$> todos (serve rt s c))).
Proof.
  intros s Hr H. exists (created rt v s).
  assert (Hs' : todos (serve rt s c) = todos s ++ [created rt v s]).
  { unfold serve. by rewrite (serve_post_ok rt s c v Hr H). }
  assert (Hids : ID <$> todos (serve rt s c) =
                 (λ k, UUID_String (entropy rt k)) <$> seq 0 (S (draws s))).
  { rewrite Hs', fmap_app, seq_S, fmap_app. unfold s. by rewrite run_ids. }
  do 7 (split; [done|]). split; [done|].
  intros Hfresh.
  assert (Hnd : NoDup (ID <$> todos (serve rt s c))).
  { rewrite Hids. apply NoDup_fmap_2_strong; [|apply NoDup_seq].
    intros i j Hi Hj Heq. apply elem_of_seq in Hi, Hj.
    destruct (Nat.lt_trichotomy i j) as [Hlt|[->|Hlt]]; [|done|].
    - destruct (Hfresh i j); [lia|done].
    - destruct (Hfresh j i); [lia|done]. }
  split; [|done].
  rewrite Hs', fmap_app in Hnd. apply NoDup_app in Hnd as (_ & Hdisj & _).
  intros Hin. apply (Hdisj _ Hin). simpl. apply list_elem_of_here.
Qed.

End Runs.

(** ** Errors and the store; listing *)

Section Errors.

Context (rt : Runtime).
Context `{TT : !JSONTarget Todo, TU : !JSONTarget StatusUpdate}.

(** A request that changes the store is answered with 201 or 200. *)
Lemma serve_store_or_success (s : State) (c : Call) :
  let s' := serve rt s c in
  todos s' = todos s ∨
  status_sent (calls s') = Some StatusCreated ∨
  status_sent (calls s') = Some StatusOK.
Proof.
  unfold serve. destruct (route c) eqn:Hr.
  - left. unfold handler. by rewrite Hr.
  - destruct (json_Decode (Body (request c)) (zero : Todo)) as [v [err|]] eqn:H.
    + left. by rewrite (serve_post_err _ _ _ _ _ Hr H).
    + right; left. by rewrite (serve_post_ok _ _ _ _ Hr H).
  - left. unfold handler. by rewrite Hr, get_todos_handler_calls.
  - destruct (string_from (String.length "/todos/") (URL_Path (request c)))
      as [id|] eqn:Hp.
    2:{ left. unfold handler. by rewrite Hr, (patch_todos_short _ _ _ Hp). }
    destruct (json_Decode (Body (request c)) (zero : StatusUpdate))
      as [u [err|]] eqn:H.
    { left. by rewrite (serve_patch_err _ _ _ _ _ _ Hr Hp H). }
    destruct (first_match id (todos s)) as [Hmiss|(l1 & t & l2 & Hs & Hl1 & Ht)].
    + left. by rewrite (serve_patch_miss _ _ _ _ _ Hr Hp H Hmiss).
    + right; right. by rewrite (serve_patch_hit _ _ _ _ _ _ _ _ Hr Hp H Hs Hl1 Ht).
Qed.

(** C5, as the code has it.  A request answered with 400 or 404 leaves the
    store as it was.  These are the answers to a create or an update whose
    body does not decode (400, with the decode error as the message) and
    to an update whose identifier matches no record (404). *)
Theorem client_errors_keep_store (s : State) (c : Call) :
  let s' := serve rt s c in
  (status_sent (calls s') = Some StatusBadRequest ∨
   status_sent (calls s') = Some StatusNotFound →
   todos s' = todos s) ∧
  (∀ (v : Todo) err,
     route c = POST_todos →
     json_Decode (Body (request c)) zero = (v, Some err) →
     calls s' = [http_Error_call
                   ("failed to decode request body: " +:+ Error err)
                   StatusBadRequest] ∧
     status_sent (calls s') = Some StatusBadRequest ∧ todos s' = todos s) ∧
  (∀ id (u : StatusUpdate) err,
     route c = PATCH_todos →
     URL_Path (request c) = "/todos/" +:+ id →
     json_Decode (Body (request c)) zero = (u, Some err) →
     calls s' = [http_Error_call
                   ("failed to decode request body: " +:+ Error err)
                   StatusBadRequest] ∧
     status_sent (calls s') = Some StatusBadRequest ∧ todos s' = todos s) ∧
  (∀ id (u : StatusUpdate),
     route c = PATCH_todos →
     URL_Path (request c) = "/todos/" +:+ id →
     json_Decode (Body (request c)) zero = (u, None) →
     id ∉ (ID <$> todos s) →
     calls s' = [http_Error_call "Todo not found" StatusNotFound] ∧
     status_sent (calls s') = Some StatusNotFound ∧ todos s' = todos s).
Proof.
  intros s'.
  assert (Hpath : ∀ id, URL_Path (request c) = "/todos/" +:+ id →
            string_from (String.length "/todos/") (URL_Path (request c)) = Some id)
    by (intros id ->; apply string_from_app).
  split; [|split; [|split]].
  - intros Hst. destruct (serve_store_or_success s c) as [Hs|[Hs|Hs]]; [done| |];
      fold s' in Hs; rewrite Hs in Hst; by destruct Hst.
  - intros v err Hr H. unfold s', serve.
    by rewrite (serve_post_err rt s c v err Hr H).
  - intros id u err Hr Hp H. unfold s', serve.
    by rewrite (serve_patch_err rt s c id u err Hr (Hpath _ Hp) H).
  - intros id u Hr Hp H Hnone. unfold s', serve.
    rewrite (serve_patch_miss rt s c id u Hr (Hpath _ Hp) H); [done|].
    apply Forall_forall. intros x Hx Heq. apply Hnone.
    apply list_elem_of_fmap. by exists x.
Qed.

(** A request other than an update appends the record of its body when it
    is a create that decodes, and leaves the store alone otherwise. *)
Lemma serve_without_update (s : State) (c : Call) :
  route c ≠ PATCH_todos →
  let s' := serve rt s c in
  match created_by c with
  | Some v => todos s' = todos s ++ [created rt v s] ∧
              ticks s' = S (S (ticks s)) ∧ draws s' = S (draws s)
  | None => todos s' = todos s ∧ ticks s' = ticks s ∧ draws s' = draws s
  end.
Proof.
  intros Hr. unfold serve, created_by. destruct (route c) eqn:Hroute; [| | |done].
  - unfold handler. by rewrite Hroute.
  - destruct (json_Decode (Body (request c)) (zero : Todo)) as [v [err|]] eqn:H.
    + by rewrite (serve_post_err _ _ _ _ _ Hroute H).
    + by rewrite (serve_post_ok _ _ _ _ Hroute H).
  - unfold handler. by rewrite Hroute, get_todos_handler_calls.
Qed.

Lemma run_without_update (cs : list Call) :
  Forall (λ c, route c ≠ PATCH_todos) cs →
  let s := run rt cs initial in
  todos s = imap (entry rt) (omap created_by cs) ∧
  ticks s = (2 * length (omap created_by cs))%nat ∧
  draws s = length (omap created_by cs).
Proof.
  induction cs as [|c cs IH] using rev_ind; intros Hcs; [done|].
  apply Forall_app in Hcs as [Hcs Hc]. apply Forall_cons in Hc as [Hc _].
  destruct (IH Hcs) as (IHt & IHk & IHd). clear IH.
  rewrite run_snoc, omap_app, imap_app, length_app. simpl.
  pose proof (serve_without_update (run rt cs initial) c Hc) as Hstep.
  simpl in Hstep. destruct (created_by c) as [v|]; simpl.
  - destruct Hstep as (-> & -> & ->). rewrite IHt, IHk, IHd.
    split; [|lia]. f_equal. unfold created, entry. simpl.
    rewrite IHk, IHd, Nat.add_0_r. done.
  - destruct Hstep as (-> & -> & ->). rewrite app_nil_r. split; [done|lia].
Qed.

(** C8. After a run in which the store was changed by creates alone (no
    update request; requests that fail or only read may come in between),
    with N creates whose body decoded, the list handler answers 200 with
    the whole store: exactly N entries, the k-th being the record of the
    k-th create, and it leaves the store as it was. *)
Theorem list_returns_all_in_creation_order (cs : list Call) (g : Call) :
  Forall (λ c, route c ≠ PATCH_todos) cs →
  route g = GET_todos →
  let s := run rt cs initial in
  let bodies := omap created_by cs in
  let entries :=
    imap (λ k v, mkTodo (UUID_String (entropy rt k)) (Title v) (Description v)
                   StatusPending (clock rt (2 * k)) (clock rt (S (2 * k)))
                   (CompletedAt v)) bodies in
  calls (serve rt s g) = responded StatusOK (any_Todos entries) (conn_error g) ∧
  status_sent (calls (serve rt s g)) = Some StatusOK ∧
  length entries = length bodies ∧
  todos s = entries ∧
  todos (serve rt s g) = todos s.
Proof.
  intros Hcs Hg s bodies entries.
  destruct (run_without_update cs Hcs) as (Ht & _ & _). fold s in Ht.
  assert (Hserve : serve rt s g =
            mkState (todos s) (ticks s) (draws s) false (conn_error g)
              (responded StatusOK (any_Todos (todos s)) (conn_error g))).
  { unfold serve, handler. by rewrite Hg, get_todos_handler_calls. }
  rewrite Hserve. simpl. rewrite Ht.
  repeat split; try done. apply length_imap.
Qed.

End Errors.

(** ** Every way a request can go *)

Section Outcomes.

Context (rt : Runtime).
Context `{TT : !JSONTarget Todo, TU : !JSONTarget StatusUpdate}.

(** The state a request leaves behind, by the path its handler takes. *)
Lemma serve_outcome (s : State) (c : Call) :
  (route c = GET_health ∧
   serve rt s c = mkState (todos s) (ticks s) (draws s) false (conn_error c)
                    [WriteHeader StatusOK]) ∨
  (route c = GET_todos ∧
   serve rt s c = mkState (todos s) (ticks s) (draws s) false (conn_error c)
                    (responded StatusOK (any_Todos (todos s)) (conn_error c))) ∨
  (route c = POST_todos ∧ ∃ (v : Todo) err,
   json_Decode (Body (request c)) zero = (v, Some err) ∧
   serve rt s c = mkState (todos s) (ticks s) (draws s) false (conn_error c)
                    [http_Error_call
                       ("failed to decode request body: " +:+ Error err)
                       StatusBadRequest]) ∨
  (route c = POST_todos ∧ ∃ v : Todo,
   json_Decode (Body (request c)) zero = (v, None) ∧
   serve rt s c = mkState (todos s ++ [created rt v s]) (S (S (ticks s)))
                    (S (draws s)) true (conn_error c)
                    (responded StatusCreated (any_Todo (created rt v s))
                       (conn_error c))) ∨
  (route c = PATCH_todos ∧
   string_from (String.length "/todos/") (URL_Path (request c)) = None ∧
   serve rt s c = accept c s) ∨
  (route c = PATCH_todos ∧ ∃ id (u : StatusUpdate) err,
   string_from (String.length "/todos/") (URL_Path (request c)) = Some id ∧
   json_Decode (Body (request c)) zero = (u, Some err) ∧
   serve rt s c = mkState (todos s) (ticks s) (draws s) false (conn_error c)
                    [http_Error_call
                       ("failed to decode request body: " +:+ Error err)
                       StatusBadRequest]) ∨
  (route c = PATCH_todos ∧ ∃ id (u : StatusUpdate),
   string_from (String.length "/todos/") (URL_Path (request c)) = Some id ∧
   json_Decode (Body (request c)) zero = (u, None) ∧
   Forall (λ x, ID x ≠ id) (todos s) ∧
   serve rt s c = mkState (todos s) (S (ticks s)) (draws s) true (conn_error c)
                    [http_Error_call "Todo not found" StatusNotFound]) ∨
  (route c = PATCH_todos ∧ ∃ id (u : StatusUpdate) l1 t l2,
   string_from (String.length "/todos/") (URL_Path (request c)) = Some id ∧
   json_Decode (Body (request c)) zero = (u, None) ∧
   todos s = l1 ++ t :: l2 ∧ Forall (λ x, ID x ≠ id) l1 ∧ ID t = id ∧
   serve rt s c = mkState (l1 ++ updated u (clock rt (ticks s)) t :: l2)
                    (S (ticks s)) (draws s) true (conn_error c)
                    (responded StatusOK
                       (any_Todo (updated u (clock rt (ticks s)) t))
                       (conn_error c))).
Proof.
  unfold serve. destruct (route c) eqn:Hr.
  - left. split; [done|]. unfold handler. by rewrite Hr.
  - destruct (json_Decode (Body (request c)) (zero : Todo)) as [v [err|]] eqn:H.
    + do 2 right; left. split; [done|]. exists v, err. split; [done|].
      by rewrite (serve_post_err _ _ _ _ _ Hr H).
    + do 3 right; left. split; [done|]. exists v. split; [done|].
      by rewrite (serve_post_ok _ _ _ _ Hr H).
  - right; left. split; [done|]. unfold handler.
    by rewrite Hr, get_todos_handler_calls.
  - destruct (string_from (String.length "/todos/") (URL_Path (request c)))
      as [id|] eqn:Hp.
    2:{ do 4 right; left. split; [done|]. split; [done|].
        unfold handler. by rewrite Hr, (patch_todos_short _ _ _ Hp). }
    destruct (json_Decode (Body (request c)) (zero : StatusUpdate))
      as [u [err|]] eqn:H.
    { do 5 right; left. split; [done|]. exists id, u, err.
      by rewrite (serve_patch_err _ _ _ _ _ _ Hr Hp H). }
    destruct (first_match id (todos s)) as [Hmiss|(l1 & t & l2 & Hs & Hl1 & Ht)].
    + do 6 right; left. split; [done|]. exists id, u.
      by rewrite (serve_patch_miss _ _ _ _ _ Hr Hp H Hmiss).
    + do 7 right. split; [done|]. exists id, u, l1, t, l2.
      by rewrite (serve_patch_hit _ _ _ _ _ _ _ _ Hr Hp H Hs Hl1 Ht).
Qed.

Lemma run_cons (c : Call) (cs : list Call) (s : State) :
  run rt (c :: cs) s = run rt cs (serve rt s c).
Proof. reflexivity. Qed.

Lemma run_app (cs1 cs2 : list Call) (s : State) :
  run rt (cs1 ++ cs2) s = run rt cs2 (run rt cs1 s).
Proof. unfold run. apply fold_left_app. Qed.

End Outcomes.

(** ** What requests leave alone, and what the client is told *)

Section Quiet.

Context (rt : Runtime).
Context `{TT : !JSONTarget Todo, TU : !JSONTarget StatusUpdate}.

(** X1. The health check, the list request, and a create or an update whose
    body does not decode leave the process as it was: the same store, no
    reading of the clock, no identifier drawn; and the request body is not
    closed. *)
Theorem quiet_requests_keep_process_state (s : State) (c : Call) :
  route c = GET_health ∨ route c = GET_todos ∨
  (route c = POST_todos ∧
   ∃ (v : Todo) err, json_Decode (Body (request c)) zero = (v, Some err)) ∨
  (route c = PATCH_todos ∧
   ∃ (u : StatusUpdate) err,
     json_Decode (Body (request c)) zero = (u, Some err)) →
  let s' := serve rt s c in
  todos s' = todos s ∧ ticks s' = ticks s ∧ draws s' = draws s ∧
  closed s' = false.
Proof.
  intros Hc s'. unfold s'.
  destruct (serve_outcome rt s c)
    as [[Hr ->]|[[Hr ->]|[(Hr & v & err & H & ->)|[(Hr & v & H & ->)|
        [(Hr & Hp & ->)|[(Hr & id & u & err & Hp & H & ->)|
        [(Hr & id & u & Hp & H & Hmiss & ->)|
         (Hr & id & u & l1 & t & l2 & Hp & H & Hs & Hl1 & Ht & ->)]]]]]]];
    try done.
  - destruct Hc as [?|[?|[(_ & v' & err & H')|(? & _)]]]; congruence.
  - destruct Hc as [?|[?|[(? & _)|(_ & u' & err & H')]]]; congruence.
  - destruct Hc as [?|[?|[(? & _)|(_ & u' & err & H')]]]; congruence.
Qed.


End Quiet.

(** ** The life of a record *)

Section Lifecycle.

Context (rt : Runtime).
Context `{TT : !JSONTarget Todo, TU : !JSONTarget StatusUpdate}.

(** One request keeps every record where it is, with its identity. *)
Lemma serve_keeps_records (s : State) (c : Call) (i : nat) (t : Todo) :
  todos s !! i = Some t →
  ∃ t', todos (serve rt s c) !! i = Some t' ∧
    ID t' = ID t ∧ Title t' = Title t ∧ Description t' = Description t ∧
    CreatedAt t' = CreatedAt t ∧
    (is_Some (CompletedAt t) → is_Some (CompletedAt t')) ∧
    (UpdatedAt t' = UpdatedAt t ∨ UpdatedAt t' = clock rt (ticks s)).
Proof.
  intros Hi.
  destruct (serve_effect rt s c)
    as [Ht _ _|v _ _ Ht _ _|id u l1 t0 l2 _ _ _ Hs _ _ Ht _ _].
  - exists t. rewrite Ht. repeat split; auto.
  - exists t. rewrite Ht. split; [by apply lookup_app_l_Some|].
    repeat split; auto.
  - rewrite Ht, (update_is_insert l1 l2 t0), <- Hs.
    destruct (decide (i = length l1)) as [->|Hne].
    + assert (t = t0) as -> by (rewrite Hs, list_lookup_middle in Hi; congruence).
      eexists. split; [apply list_lookup_insert_eq; by eapply lookup_lt_Some|].
      unfold updated; simpl. repeat split; auto.
      intros Hc. destruct (String.eqb _ _); [by eexists | done].
    + exists t. split; [by rewrite list_lookup_insert_ne|]. repeat split; auto.
Qed.

Lemma run_keeps_records (cs : list Call) : ∀ (s : State) (i : nat) (t : Todo),
  todos s !! i = Some t →
  ∃ t', todos (run rt cs s) !! i = Some t' ∧
    ID t' = ID t ∧ Title t' = Title t ∧ Description t' = Description t ∧
    CreatedAt t' = CreatedAt t ∧
    (is_Some (CompletedAt t) → is_Some (CompletedAt t')).
Proof.
  induction cs as [|c cs IH]; intros s i t Hi.
  - exists t. by repeat split.
  - rewrite run_cons.
    destruct (serve_keeps_records s c i t Hi)
      as (t1 & H1 & Hid & Hti & Hde & Hcr & Hco & _).
    destruct (IH _ _ _ H1) as (t2 & H2 & Hid2 & Hti2 & Hde2 & Hcr2 & Hco2).
    exists t2. split; [done|].
    repeat split; try congruence. auto.
Qed.

(** X6. No request ever deletes, moves or renames a record: through any
    sequence of requests, from any state, the record at a position stays at
    that position with the same [id], [title], [description] and
    [created_at], and a [completed_at] that is set stays set. *)
Theorem records_keep_their_place (cs : list Call) (s : State) (i : nat) (t : Todo) :
  todos s !! i = Some t →
  ∃ t', todos (run rt cs s) !! i = Some t' ∧
    ID t' = ID t ∧ Title t' = Title t ∧ Description t' = Description t ∧
    CreatedAt t' = CreatedAt t ∧
    (is_Some (CompletedAt t) → is_Some (CompletedAt t')).
Proof. apply run_keeps_records. Qed.

(** A record reads [completed] only after an update that stamped it. *)
Lemma run_completed (cs : list Call) :
  Forall (λ t, Status t = StatusCompleted → CompletedAt t = Some (UpdatedAt t))
         (todos (run rt cs initial)).
Proof.
  induction cs as [|c cs IH] using rev_ind; [by constructor|].
  rewrite run_snoc.
  destruct (serve_effect rt (run rt cs initial) c)
    as [Ht _ _|v _ _ Ht _ _|id u l1 t l2 _ _ _ Hs _ _ Ht _ _].
  - by rewrite Ht.
  - rewrite Ht. apply Forall_app. split; [done|].
    constructor; [|constructor]. unfold created; simpl. discriminate.
  - rewrite Ht. rewrite Hs in IH.
    apply Forall_app in IH as [IH1 IH2]. apply Forall_cons in IH2 as [_ IH2].
    apply Forall_app. split; [done|]. constructor; [|done].
    unfold updated; simpl. intros Hu. apply String.eqb_eq in Hu. by rewrite Hu.
Qed.

(** X4. In every reachable store a record whose [status] is [completed]
    has a [completed_at], and it equals its [updated_at]: the status is
    [completed] only since the last update, which stamped both. *)
Theorem completed_status_has_timestamp (cs : list Call) (t : Todo) :
  t ∈ todos (run rt cs initial) →
  Status t = StatusCompleted →
  CompletedAt t = Some (UpdatedAt t).
Proof.
  intros Hin. pose proof (run_completed cs) as H.
  rewrite Forall_forall in H. by apply H.
Qed.

Lemma run_id_lengths (cs : list Call) :
  Forall (λ t, String.length (ID t) = 36%nat) (todos (run rt cs initial)).
Proof.
  pose proof (run_ids rt cs) as Hids. simpl in Hids.
  apply Forall_forall. intros t Hin.
  assert (Hid : ID t ∈ ID <$> todos (run rt cs initial))
    by (apply list_elem_of_fmap; by exists t).
  rewrite Hids in Hid. apply list_elem_of_fmap in Hid as (k & -> & _).
  apply UUID_String_length.
Qed.

(** X5. Every identifier in a reachable store has the 36 characters of a
    UUID, so an update whose body decodes and whose path names anything
    else, the empty identifier of [PATCH /todos/] included, matches no
    record: it is answered with 404 and the store is left as it was. *)
Theorem update_with_malformed_id_not_found (cs : list Call) (c : Call)
    (id : string) (u : StatusUpdate) :
  route c = PATCH_todos →
  URL_Path (request c) = "/todos/" +:+ id →
  json_Decode (Body (request c)) zero = (u, None) →
  String.length id ≠ 36%nat →
  let s := run rt cs initial in
  Forall (λ t, String.length (ID t) = 36%nat) (todos s) ∧
  todos (serve rt s c) = todos s ∧
  calls (serve rt s c) = [http_Error_call "Todo not found" StatusNotFound].
Proof.
  intros Hr Hpath H Hlen s.
  pose proof (run_id_lengths cs) as Hids. fold s in Hids.
  split; [done|].
  assert (Hmiss : Forall (λ x, ID x ≠ id) (todos s)).
  { eapply Forall_impl; [exact Hids|]. intros x Hx Heq. simpl in Hx.
    apply Hlen. by rewrite <- Heq. }
  unfold serve.
  rewrite (serve_patch_miss rt s c id u); try done.
  rewrite Hpath. apply string_from_app.
Qed.

(** What a request adds to the titles and descriptions in the store. *)
Lemma serve_texts (s : State) (c : Call) :
  (λ t, (Title t, Description t)) <$> todos (serve rt s c) =
  ((λ t, (Title t, Description t)) <$> todos s) ++
  match created_by c with
  | Some v => [(Title v, Description v)]
  | None => []
  end.
Proof.
  unfold created_by.
  destruct (serve_outcome rt s c)
    as [[Hr ->]|[[Hr ->]|[(Hr & v & err & H & ->)|[(Hr & v & H & ->)|
        [(Hr & Hp & ->)|[(Hr & id & u & err & Hp & H & ->)|
        [(Hr & id & u & Hp & H & Hmiss & ->)|
         (Hr & id & u & l1 & t & l2 & Hp & H & Hs & Hl1 & Ht & ->)]]]]]]];
    rewrite Hr; simpl; rewrite ?H, ?app_nil_r; try done.
  - by rewrite fmap_app.
  - by rewrite Hs, !fmap_app.
Qed.

(** X7. Whatever else is requested in between, updates included, the store
    holds one record per create whose body decoded, in the order of the
    creates, each with the [title] and [description] of its body. *)
Theorem store_lists_the_creates (cs : list Call) :
  let s := run rt cs initial in
  (λ t, (Title t, Description t)) <$> todos s =
    (λ v, (Title v, Description v)) <$> omap created_by cs ∧
  length (todos s) = length (omap created_by cs) ∧
  length (todos s) = draws s.
Proof.
  simpl.
  assert (Htexts : (λ t, (Title t, Description t)) <$> todos (run rt cs initial) =
                   (λ v, (Title v, Description v)) <$> omap created_by cs).
  { induction cs as [|c cs IH] using rev_ind; [done|].
    rewrite run_snoc, serve_texts, IH, omap_app, fmap_app. simpl.
    by destruct (created_by c). }
  split; [done|]. split.
  - apply (f_equal length) in Htexts. by rewrite !length_fmap in Htexts.
  - pose proof (run_ids rt cs) as Hids. simpl in Hids.
    apply (f_equal length) in Hids.
    by rewrite !length_fmap, length_seq in Hids.
Qed.

(** On a clock that never runs backwards no record was updated later than
    the next reading of the clock. *)
Lemma run_updated_bound (cs : list Call) :
  (∀ n, clock rt n ≤ clock rt (S n)) →
  let s := run rt cs initial in
  Forall (λ t, UpdatedAt t ≤ clock rt (ticks s)) (todos s).
Proof.
  intros Hmono. induction cs as [|c cs IH] using rev_ind; [by constructor|].
  rewrite run_snoc. simpl in *.
  set (s := run rt cs initial) in *.
  assert (Hlater : ∀ n t, (ticks s ≤ n)%nat →
            UpdatedAt t ≤ clock rt (ticks s) → UpdatedAt t ≤ clock rt n).
  { intros n t Hn ?. pose proof (clock_mono_le rt _ _ Hmono Hn). lia. }
  destruct (serve_effect rt s c)
    as [Ht _ Hk|v _ _ Ht _ Hk|id u l1 t l2 _ _ _ Hs _ _ Ht _ Hk].
  - rewrite Ht. eapply Forall_impl; [exact IH|]. intros t. apply Hlater. lia.
  - rewrite Ht, Hk. apply Forall_app. split.
    + eapply Forall_impl; [exact IH|]. intros t. apply Hlater. lia.
    + constructor; [|constructor]. unfold created; simpl.
      pose proof (Hmono (S (ticks s))). lia.
  - rewrite Ht, Hk. rewrite Hs in IH.
    apply Forall_app in IH as [IH1 IH2]. apply Forall_cons in IH2 as [_ IH2].
    apply Forall_app. split; [|constructor].
    + eapply Forall_impl; [exact IH1|]. intros x. apply Hlater. lia.
    + unfold updated; simpl. apply Hmono.
    + eapply Forall_impl; [exact IH2|]. intros x. apply Hlater. lia.
Qed.

(** X10. On a clock that never runs backwards the [updated_at] of a record
    never decreases: through any further requests the record at a position
    of a reachable store has an [updated_at] no earlier than before. *)
Theorem updated_at_never_decreases (cs1 cs2 : list Call) (i : nat) (t t' : Todo) :
  (∀ n, clock rt n ≤ clock rt (S n)) →
  todos (run rt cs1 initial) !! i = Some t →
  todos (run rt (cs1 ++ cs2) initial) !! i = Some t' →
  UpdatedAt t ≤ UpdatedAt t'.
Proof.
  intros Hmono. revert t'.
  induction cs2 as [|c cs2 IH] using rev_ind; intros t' Ht Ht'.
  - rewrite app_nil_r in Ht'. assert (t' = t) as -> by congruence. lia.
  - rewrite app_assoc, run_snoc in Ht'.
    destruct (run_keeps_records cs2 (run rt cs1 initial) i t Ht) as (t1 & H1 & _).
    rewrite <- run_app in H1.
    specialize (IH t1 Ht H1).
    destruct (serve_keeps_records _ c i t1 H1) as (t2 & H2 & _ & _ & _ & _ & _ & Hup).
    assert (t2 = t') as -> by congruence.
    destruct Hup as [-> | ->]; [done|].
    pose proof (run_updated_bound (cs1 ++ cs2) Hmono) as Hb. simpl in Hb.
    rewrite Forall_forall in Hb.
    assert (Hin : t1 ∈ todos (run rt (cs1 ++ cs2) initial))
      by (apply list_elem_of_lookup; eauto).
    specialize (Hb _ Hin). lia.
Qed.

End Lifecycle.

(** ** Requests in sequence *)

Section Sequences.

Context (rt : Runtime).
Context `{TT : !JSONTarget Todo, TU : !JSONTarget StatusUpdate}.

Lemma path_suffix (r : Request) (id : string) :
  URL_Path r = "/todos/" +:+ id →
  string_from (String.length "/todos/") (URL_Path r) = Some id.
Proof. intros ->. apply string_from_app. Qed.

Lemma member_first_match (id : string) (l : list Todo) :
  id ∈ ID <$> l →
  ∃ l1 t l2, l = l1 ++ t :: l2 ∧ Forall (λ x, ID x ≠ id) l1 ∧ ID t = id.
Proof.
  intros Hin. destruct (first_match id l) as [Hmiss|H]; [|done].
  apply list_elem_of_fmap in Hin as (x & Hx & Hxin).
  rewrite Forall_forall in Hmiss. by destruct (Hmiss x Hxin).
Qed.

(** X8. Completing a todo and then setting it to another status: the record
    ends with the second status and the second reading of the clock as
    [updated_at], and keeps as [completed_at] the time of the completion;
    the store keeps its length. *)
Theorem complete_then_reopen (s : State) (c1 c2 : Call) (id : string)
    (u1 u2 : StatusUpdate) :
  route c1 = PATCH_todos → route c2 = PATCH_todos →
  URL_Path (request c1) = "/todos/" +:+ id →
  URL_Path (request c2) = "/todos/" +:+ id →
  json_Decode (Body (request c1)) zero = (u1, None) →
  json_Decode (Body (request c2)) zero = (u2, None) →
  update_Status u1 = StatusCompleted →
  update_Status u2 ≠ StatusCompleted →
  id ∈ ID <$> todos s →
  let s' := serve rt (serve rt s c1) c2 in
  ∃ i t t',
    todos s !! i = Some t ∧ ID t = id ∧
    todos s' !! i = Some t' ∧
    length (todos s') = length (todos s) ∧
    Status t' = update_Status u2 ∧
    UpdatedAt t' = clock rt (S (ticks s)) ∧
    CompletedAt t' = Some (clock rt (ticks s)).
Proof.
  intros Hr1 Hr2 Hp1%path_suffix Hp2%path_suffix H1 H2 Hu1 Hu2 Hin s'.
  destruct (member_first_match id (todos s) Hin) as (l1 & t & l2 & Hs & Hl1 & Ht).
  set (t1 := updated u1 (clock rt (ticks s)) t).
  assert (Hs1 : serve rt s c1 =
            mkState (l1 ++ t1 :: l2) (S (ticks s)) (draws s) true (conn_error c1)
              (responded StatusOK (any_Todo t1) (conn_error c1))).
  { unfold serve. by rewrite (serve_patch_hit rt s c1 id u1 l1 t l2). }
  set (t2 := updated u2 (clock rt (S (ticks s))) t1).
  assert (Hs2 : todos s' = l1 ++ t2 :: l2).
  { unfold s'. rewrite Hs1. unfold serve.
    by rewrite (serve_patch_hit rt _ c2 id u2 l1 t1 l2). }
  exists (length l1), t, t2.
  rewrite Hs2, Hs, !list_lookup_middle by done.
  repeat split; try done.
  - by rewrite !length_app.
  - unfold t2, t1, updated; simpl. apply String.eqb_neq in Hu2.
    rewrite Hu2, Hu1. done.
Qed.

(** X9. A todo that has just been created is the one an update by its
    identifier reaches, provided no older record carries that identifier:
    the older records stay as they were, and the new one, and the response,
    has the [title] and [description] of the create, its [created_at], the
    status of the update and the third reading of the clock as
    [updated_at]. *)
Theorem create_then_update (s : State) (c p : Call) (v : Todo) (u : StatusUpdate) :
  let id := UUID_String (entropy rt (draws s)) in
  route c = POST_todos →
  json_Decode (Body (request c)) zero = (v, None) →
  id ∉ (ID <$> todos s) →
  route p = PATCH_todos →
  URL_Path (request p) = "/todos/" +:+ id →
  json_Decode (Body (request p)) zero = (u, None) →
  let now := clock rt (S (S (ticks s))) in
  let t := mkTodo id (Title v) (Description v) (update_Status u)
             (clock rt (ticks s)) now
             (if String.eqb (update_Status u) StatusCompleted
              then Some now else CompletedAt v) in
  let s' := serve rt (serve rt s c) p in
  todos s' = todos s ++ [t] ∧
  calls s' = responded StatusOK (any_Todo t) (conn_error p).
Proof.
  intros id Hc Hv Hfresh Hp Hpath%path_suffix Hu now t s'.
  assert (Hs1 : serve rt s c =
            mkState (todos s ++ [created rt v s]) (S (S (ticks s))) (S (draws s))
              true (conn_error c)
              (responded StatusCreated (any_Todo (created rt v s)) (conn_error c))).
  { unfold serve. by rewrite (serve_post_ok rt s c v). }
  assert (Hmiss : Forall (λ x, ID x ≠ id) (todos s)).
  { apply Forall_forall. intros x Hx Heq. apply Hfresh.
    apply list_elem_of_fmap. by exists x. }
  unfold s'. rewrite Hs1. unfold serve.
  by rewrite (serve_patch_hit rt _ p id u (todos s) (created rt v s) []).
Qed.

End Sequences.

(** ** The theorems at work on the sample environment *)

Section Examples.

Import Sample.

Example two_todos_store :
  todos two_todos =
  [mkTodo id0 "A" "B" "pending" 1767225600 1767225601 None;
   mkTodo id1 "A" "" "pending" 1767225602 1767225603 (Some 1577836800)].
Proof. reflexivity. Qed.

Example scenario_milk :
  let created := serve rt initial (post body_milk) in
  let completed := serve rt created (patch id0 (body_status "completed")) in
  let listed := serve rt completed list_all in
  status_sent (calls created) = Some 201 ∧
  status_sent (calls completed) = Some 200 ∧
  calls listed =
    responded 200
      (any_Todos [mkTodo id0 "Buy milk" "2%" "completed" 1767225600 1767225602
                    (Some 1767225602)]) None.
Proof. by vm_compute. Qed.

(** C9: what [decodeJSON] does with a body that is not JSON.  It returns
    the decode error wrapping the parse error, and the request body is
    still open when it returns; on a body that decodes the body has been
    closed. *)
Theorem decodeJSON_failure_leaves_body_open :
  let failed := decodeJSON (T := Todo) (mkRequest "/todos" body_text) initial in
  let decoded := decodeJSON (T := Todo) (mkRequest "/todos" body_AB) initial in
  let e := wrapError ("failed to decode request body: " +:+ Error syntax_error)
             syntax_error in
  failed = Ret (zero, Some e) initial ∧
  Unwrap e = Some syntax_error ∧
  closed (final failed) = false ∧
  decoded = Ret (mkTodo "" "A" "B" "" 0 0 None, None)
                (mkState [] 0 0 true None []) ∧
  closed (final decoded) = true.
Proof. repeat split. Qed.

(** An update of the second record back to [pending]: the first record is
    passed over, the second keeps its [completed_at]. *)
Lemma update_status_first_match_witness :
  let s := two_todos in
  let c := patch id1 (body_status "pending") in
  let id := id1 in
  let u := mkStatusUpdate "pending" in
  route c = PATCH_todos ∧
  URL_Path (request c) = "/todos/" +:+ id ∧
  json_Decode (Body (request c)) zero = (u, None) ∧
  let now := clock rt (ticks s) in
  ∃ s', handler rt c (accept c s) = Ret tt s' ∧
    ((∃ l1 t l2,
        todos s = l1 ++ t :: l2 ∧ Forall (λ x, ID x ≠ id) l1 ∧ ID t = id ∧
        let t' := mkTodo (ID t) (Title t) (Description t) (update_Status u)
                    (CreatedAt t) now
                    (if String.eqb (update_Status u) StatusCompleted
                     then Some now else CompletedAt t) in
        todos s' = l1 ++ t' :: l2 ∧
        calls s' = responded StatusOK (any_Todo t') (conn_error c) ∧
        status_sent (calls s') = Some StatusOK)
     ∨ (Forall (λ x, ID x ≠ id) (todos s) ∧
        todos s' = todos s ∧
        calls s' = [http_Error_call "Todo not found" StatusNotFound] ∧
        status_sent (calls s') = Some StatusNotFound)).
Proof.
  intros s c id u.
  split; [reflexivity|]. split; [reflexivity|]. split; [reflexivity|].
  apply (update_status_first_match rt s c id u); reflexivity.
Defined.

Lemma completing_stamps_one_time_witness :
  let s := two_todos in
  let c := patch id0 (body_status "completed") in
  let id := id0 in
  let u := mkStatusUpdate "completed" in
  route c = PATCH_todos ∧
  URL_Path (request c) = "/todos/" +:+ id ∧
  json_Decode (Body (request c)) zero = (u, None) ∧
  update_Status u = StatusCompleted ∧
  id ∈ ID <$> todos s ∧
  ∃ i t t',
    todos s !! i = Some t ∧ ID t = id ∧
    todos (serve rt s c) !! i = Some t' ∧
    Encode (any_Todo t') ∈ calls (serve rt s c) ∧
    ID t' = id ∧ Status t' = StatusCompleted ∧
    UpdatedAt t' = clock rt (ticks s) ∧
    CompletedAt t' = Some (UpdatedAt t').
Proof.
  intros s c id u.
  assert (Hin : id ∈ ID <$> todos s) by (apply list_elem_of_In; simpl; auto).
  split; [reflexivity|]. split; [reflexivity|]. split; [reflexivity|].
  split; [reflexivity|]. split; [exact Hin|].
  apply (completing_stamps_one_time rt s c id u);
    [reflexivity | reflexivity | reflexivity | reflexivity | exact Hin].
Defined.

Lemma update_frame_witness :
  let s := two_todos in
  let c := patch id1 (body_status "pending") in
  let id := id1 in
  let u := mkStatusUpdate "pending" in
  route c = PATCH_todos ∧
  URL_Path (request c) = "/todos/" +:+ id ∧
  json_Decode (Body (request c)) zero = (u, None) ∧
  let s' := serve rt s c in
  length (todos s') = length (todos s) ∧
  (∀ i t, todos s !! i = Some t →
     ∃ t', todos s' !! i = Some t' ∧
       ID t' = ID t ∧ Title t' = Title t ∧
       Description t' = Description t ∧ CreatedAt t' = CreatedAt t ∧
       (is_Some (CompletedAt t) → is_Some (CompletedAt t')) ∧
       (update_Status u ≠ StatusCompleted → CompletedAt t' = CompletedAt t) ∧
       (ID t ≠ id → t' = t)) ∧
  (∀ i j, todos s' !! i ≠ todos s !! i → todos s' !! j ≠ todos s !! j → i = j).
Proof.
  intros s c id u.
  split; [reflexivity|]. split; [reflexivity|]. split; [reflexivity|].
  apply (update_frame rt s c id u); reflexivity.
Defined.

(** C2 as stated fails.  With the clock advancing between the two readings
    the record created from a body that also names [id], [status] and
    [completed_at] has [created_at ≠ updated_at] and is encoded with a
    [completed_at] field. *)
Lemma create_result_counterexample :
  ∃ t, todos (serve rt initial (post body_full)) = [t] ∧
    calls (serve rt initial (post body_full)) =
      responded StatusCreated (any_Todo t) None ∧
    CreatedAt t ≠ UpdatedAt t ∧
    "completed_at" ∈ json_fields t.
Proof.
  eexists. split; [reflexivity|]. split; [reflexivity|]. split.
  - vm_compute. discriminate.
  - apply list_elem_of_In. vm_compute. tauto.
Qed.

Lemma create_result_witness :
  let s := initial in
  let c := post body_AB in
  let v := mkTodo "" "A" "B" "" 0 0 None in
  route c = POST_todos ∧
  json_Decode (Body (request c)) zero = (v, None) ∧
  ∃ t s', handler rt c (accept c s) = Ret tt s' ∧
    todos s' = todos s ++ [t] ∧
    calls s' = responded StatusCreated (any_Todo t) (conn_error c) ∧
    status_sent (calls s') = Some StatusCreated ∧
    ID t ≠ "" ∧ Status t = StatusPending ∧
    CreatedAt t = clock rt (ticks s) ∧
    UpdatedAt t = clock rt (S (ticks s)) ∧
    (CompletedAt v = None →
     CompletedAt t = None ∧ "completed_at" ∉ json_fields t).
Proof.
  intros s c v.
  split; [reflexivity|]. split; [reflexivity|].
  apply (create_result rt s c v); reflexivity.
Defined.

(** C3 as stated fails.  An update with the status [archived] is stored as
    sent, and the store holds a status that is neither [pending] nor
    [completed]. *)
Lemma stored_status_counterexample :
  ∃ t, t ∈ todos (run rt [post body_AB; patch id0 (body_status "archived")] initial) ∧
    Status t ≠ StatusPending ∧ Status t ≠ StatusCompleted.
Proof.
  exists (mkTodo id0 "A" "B" "archived" 1767225600 1767225602 None).
  split; [|split; discriminate].
  apply list_elem_of_In. vm_compute. tauto.
Qed.

Lemma stored_status_origin_witness :
  let cs := [post body_AB; patch id0 (body_status "archived")] in
  let t := mkTodo id0 "A" "B" "archived" 1767225600 1767225602 None in
  t ∈ todos (run rt cs initial) ∧
  (Status t = StatusPending ∨
   ∃ c (u : StatusUpdate), c ∈ cs ∧ route c = PATCH_todos ∧
     json_Decode (Body (request c)) zero = (u, None) ∧
     Status t = update_Status u).
Proof.
  intros cs t.
  assert (Hin : t ∈ todos (run rt cs initial))
    by (apply list_elem_of_In; vm_compute; tauto).
  split; [exact Hin|].
  apply (stored_status_origin rt cs t Hin).
Defined.

Lemma created_before_updated_witness :
  let cs := [post body_AB; patch id0 (body_status "completed")] in
  let t := mkTodo id0 "A" "B" "completed" 1767225600 1767225602
             (Some 1767225602) in
  (∀ n, clock rt n ≤ clock rt (S n)) ∧
  t ∈ todos (run rt cs initial) ∧
  CreatedAt t ≤ UpdatedAt t.
Proof.
  intros cs t.
  assert (Hmono : ∀ n, clock rt n ≤ clock rt (S n)) by (intros n; simpl; lia).
  assert (Hin : t ∈ todos (run rt cs initial))
    by (apply list_elem_of_In; vm_compute; tauto).
  split; [exact Hmono|]. split; [exact Hin|].
  apply (created_before_updated rt cs t Hmono Hin).
Defined.

(** C4 as stated fails.  When the identifier source yields the same value
    twice, two creates store the same [id] twice: nothing in the handler
    compares identifiers. *)
Lemma ids_unique_counterexample :
  let s := run rt_repeating [post body_AB; post body_milk] initial in
  ∃ t1 t2, todos s = [t1; t2] ∧ ID t1 = ID t2 ∧ ¬ NoDup (ID <$> todos s).
Proof.
  eexists _, _. split; [reflexivity|]. split; [reflexivity|].
  intros Hnd. apply NoDup_cons in Hnd as [Hnot _].
  apply Hnot. apply list_elem_of_In. simpl. auto.
Qed.

Lemma create_overwrites_and_ids_unique_witness :
  let cs := [post body_AB] in
  let c := post body_full in
  let v := mkTodo "mine" "A" "" "completed" 0 0 (Some 1577836800) in
  let s := run rt cs initial in
  route c = POST_todos ∧
  json_Decode (Body (request c)) zero = (v, None) ∧
  (∀ i j, (i < j ≤ draws s)%nat →
     UUID_String (entropy rt i) ≠ UUID_String (entropy rt j)) ∧
  ∃ t, todos (serve rt s c) = todos s ++ [t] ∧
    ID t = UUID_String (entropy rt (draws s)) ∧
    CreatedAt t = clock rt (ticks s) ∧
    UpdatedAt t = clock rt (S (ticks s)) ∧
    Status t = StatusPending ∧
    Title t = Title v ∧ Description t = Description v ∧
    ID <$> todos (serve rt s c) =
      (λ k, UUID_String (entropy rt k)) <$> seq 0 (S (draws s)) ∧
    (ID t ∉ (ID <$> todos s)) ∧
    NoDup (ID <$> todos (serve rt s c)).
Proof.
  intros cs c v s.
  assert (Hfresh : ∀ i j, (i < j ≤ draws s)%nat →
            UUID_String (entropy rt i) ≠ UUID_String (entropy rt j)).
  { intros i j Hij. assert (i = 0 ∧ j = 1)%nat as [-> ->] by (simpl in Hij; lia).
    vm_compute. discriminate. }
  split; [reflexivity|]. split; [reflexivity|]. split; [exact Hfresh|].
  destruct (create_overwrites_and_ids_unique rt cs c v eq_refl eq_refl)
    as (t & Ht & Hid & Hcr & Hup & Hst & Hti & Hde & Hids & Hnd).
  exists t. do 8 (split; [assumption|]). exact (Hnd Hfresh).
Defined.

(** C7 as stated fails.  When the clock steps back between the two readings
    of a create, the record is stored with [created_at] later than
    [updated_at]: the handlers store what the clock says. *)
Lemma created_before_updated_counterexample :
  ∃ t, t ∈ todos (run rt_backwards [post body_AB] initial) ∧
    UpdatedAt t < CreatedAt t.
Proof.
  exists (mkTodo id0 "A" "B" "pending" 1767225600 1767225599 None).
  split; [apply list_elem_of_In; vm_compute; tauto|].
  simpl. lia.
Qed.

(** C5 as stated fails.  A create on a broken connection appends its
    record and then answers the failed encoding with [http.Error] and 500:
    a handler-level error after which the store has changed. *)
Lemma handler_error_counterexample :
  let s' := serve rt initial (post_on_broken_connection body_AB) in
  http_Error_call (Error broken_pipe) StatusInternalServerError ∈ calls s' ∧
  length (todos s') = 1%nat ∧ todos s' ≠ todos initial.
Proof.
  split; [apply list_elem_of_In; vm_compute; tauto|].
  split; [reflexivity|]. vm_compute. discriminate.
Qed.

Lemma client_errors_keep_store_witness :
  let s := two_todos in
  (let c := post body_text in
   route c = POST_todos ∧
   json_Decode (Body (request c)) zero = (zero : Todo, Some syntax_error) ∧
   status_sent (calls (serve rt s c)) = Some StatusBadRequest ∧
   todos (serve rt s c) = todos s) ∧
  (let c := patch "nobody" (body_status "completed") in
   route c = PATCH_todos ∧
   ("nobody" ∉ (ID <$> todos s)) ∧
   status_sent (calls (serve rt s c)) = Some StatusNotFound ∧
   todos (serve rt s c) = todos s).
Proof.
  intros s. split.
  - intros c.
    destruct (client_errors_keep_store rt s c) as (_ & Hpost & _).
    destruct (Hpost zero syntax_error) as (_ & Hst & Hs);
      [reflexivity | reflexivity |].
    split; [reflexivity|]. split; [reflexivity|].
    split; [exact Hst | exact Hs].
  - intros c.
    assert (Hno : "nobody" ∉ (ID <$> todos s)).
    { intros Hin%list_elem_of_In. vm_compute in Hin. intuition discriminate. }
    destruct (client_errors_keep_store rt s c) as (_ & _ & _ & Hmiss).
    destruct (Hmiss "nobody" (mkStatusUpdate "completed")) as (_ & Hst & Hs);
      [reflexivity | reflexivity | reflexivity | exact Hno |].
    split; [reflexivity|]. split; [exact Hno|].
    split; [exact Hst | exact Hs].
Defined.

Lemma list_returns_all_in_creation_order_witness :
  let cs := [post body_AB; post body_text; list_all; post body_full] in
  let g := list_all in
  Forall (λ c, route c ≠ PATCH_todos) cs ∧
  route g = GET_todos ∧
  let s := run rt cs initial in
  let bodies := omap created_by cs in
  let entries :=
    imap (λ k v, mkTodo (UUID_String (entropy rt k)) (Title v) (Description v)
                   StatusPending (clock rt (2 * k)) (clock rt (S (2 * k)))
                   (CompletedAt v)) bodies in
  calls (serve rt s g) = responded StatusOK (any_Todos entries) (conn_error g) ∧
  status_sent (calls (serve rt s g)) = Some StatusOK ∧
  length entries = length bodies ∧
  todos s = entries ∧
  todos (serve rt s g) = todos s.
Proof.
  intros cs g.
  assert (Hcs : Forall (λ c, route c ≠ PATCH_todos) cs)
    by (repeat constructor; discriminate).
  split; [exact Hcs|]. split; [reflexivity|].
  apply (list_returns_all_in_creation_order rt cs g Hcs). reflexivity.
Defined.

End Examples.

(** ** Further examples on the sample environment *)

Section MoreExamples.

Import Sample.

Lemma quiet_requests_keep_process_state_witness :
  let s := two_todos in
  let c := post body_text in
  (route c = GET_health ∨ route c = GET_todos ∨
   (route c = POST_todos ∧
    ∃ (v : Todo) err, json_Decode (Body (request c)) zero = (v, Some err)) ∨
   (route c = PATCH_todos ∧
    ∃ (u : StatusUpdate) err,
      json_Decode (Body (request c)) zero = (u, Some err))) ∧
  let s' := serve rt s c in
  todos s' = todos s ∧ ticks s' = ticks s ∧ draws s' = draws s ∧
  closed s' = false.
Proof.
  intros s c.
  assert (Hc : route c = GET_health ∨ route c = GET_todos ∨
   (route c = POST_todos ∧
    ∃ (v : Todo) err, json_Decode (Body (request c)) zero = (v, Some err)) ∨
   (route c = PATCH_todos ∧
    ∃ (u : StatusUpdate) err,
      json_Decode (Body (request c)) zero = (u, Some err))).
  { right; right; left. split; [reflexivity|].
    exists zero, syntax_error. reflexivity. }
  split; [exact Hc|].
  apply (quiet_requests_keep_process_state rt s c Hc).
Defined.


Lemma completed_status_has_timestamp_witness :
  let cs := [post body_AB; patch id0 (body_status "completed")] in
  let t := mkTodo id0 "A" "B" "completed" 1767225600 1767225602
             (Some 1767225602) in
  t ∈ todos (run rt cs initial) ∧
  Status t = StatusCompleted ∧
  CompletedAt t = Some (UpdatedAt t).
Proof.
  intros cs t.
  assert (Hin : t ∈ todos (run rt cs initial))
    by (apply list_elem_of_In; vm_compute; tauto).
  split; [exact Hin|]. split; [reflexivity|].
  apply (completed_status_has_timestamp rt cs t Hin). reflexivity.
Defined.

Lemma update_with_malformed_id_not_found_witness :
  let cs := [post body_AB; post body_full] in
  let c := patch "" (body_status "completed") in
  let id := "" in
  let u := mkStatusUpdate "completed" in
  route c = PATCH_todos ∧
  URL_Path (request c) = "/todos/" +:+ id ∧
  json_Decode (Body (request c)) zero = (u, None) ∧
  String.length id ≠ 36%nat ∧
  let s := run rt cs initial in
  Forall (λ t, String.length (ID t) = 36%nat) (todos s) ∧
  todos (serve rt s c) = todos s ∧
  calls (serve rt s c) = [http_Error_call "Todo not found" StatusNotFound].
Proof.
  intros cs c id u.
  assert (Hlen : String.length id ≠ 36%nat) by (simpl; lia).
  split; [reflexivity|]. split; [reflexivity|]. split; [reflexivity|].
  split; [exact Hlen|].
  apply (update_with_malformed_id_not_found rt cs c id u);
    [reflexivity | reflexivity | reflexivity | exact Hlen].
Defined.

Lemma records_keep_their_place_witness :
  let s := two_todos in
  let cs := [patch id1 (body_status "pending"); post body_milk;
             patch id1 (body_status "archived")] in
  let i := 1%nat in
  let t := mkTodo id1 "A" "" "pending" 1767225602 1767225603 (Some 1577836800) in
  todos s !! i = Some t ∧
  ∃ t', todos (run rt cs s) !! i = Some t' ∧
    ID t' = ID t ∧ Title t' = Title t ∧ Description t' = Description t ∧
    CreatedAt t' = CreatedAt t ∧
    (is_Some (CompletedAt t) → is_Some (CompletedAt t')).
Proof.
  intros s cs i t.
  split; [reflexivity|].
  apply (records_keep_their_place rt cs s i t). reflexivity.
Defined.

Lemma complete_then_reopen_witness :
  let s := two_todos in
  let c1 := patch id0 (body_status "completed") in
  let c2 := patch id0 (body_status "pending") in
  let id := id0 in
  let u1 := mkStatusUpdate "completed" in
  let u2 := mkStatusUpdate "pending" in
  update_Status u1 = StatusCompleted ∧
  update_Status u2 ≠ StatusCompleted ∧
  id ∈ ID <$> todos s ∧
  let s' := serve rt (serve rt s c1) c2 in
  ∃ i t t',
    todos s !! i = Some t ∧ ID t = id ∧
    todos s' !! i = Some t' ∧
    length (todos s') = length (todos s) ∧
    Status t' = update_Status u2 ∧
    UpdatedAt t' = clock rt (S (ticks s)) ∧
    CompletedAt t' = Some (clock rt (ticks s)).
Proof.
  intros s c1 c2 id u1 u2.
  assert (Hu2 : update_Status u2 ≠ StatusCompleted) by discriminate.
  assert (Hin : id ∈ ID <$> todos s) by (apply list_elem_of_In; simpl; auto).
  split; [reflexivity|]. split; [exact Hu2|]. split; [exact Hin|].
  apply (complete_then_reopen rt s c1 c2 id u1 u2);
    [reflexivity | reflexivity | reflexivity | reflexivity | reflexivity
    | reflexivity | reflexivity | exact Hu2 | exact Hin].
Defined.

Lemma create_then_update_witness :
  let s := two_todos in
  let c := post body_milk in
  let p := patch "123e4567-e89b-42d3-a456-426614174002" (body_status "completed") in
  let v := mkTodo "" "Buy milk" "2%" "" 0 0 None in
  let u := mkStatusUpdate "completed" in
  let id := UUID_String (entropy rt (draws s)) in
  (id ∉ (ID <$> todos s)) ∧
  let now := clock rt (S (S (ticks s))) in
  let t := mkTodo id (Title v) (Description v) (update_Status u)
             (clock rt (ticks s)) now
             (if String.eqb (update_Status u) StatusCompleted
              then Some now else CompletedAt v) in
  let s' := serve rt (serve rt s c) p in
  todos s' = todos s ++ [t] ∧
  calls s' = responded StatusOK (any_Todo t) (conn_error p).
Proof.
  intros s c p v u id.
  assert (Hfresh : id ∉ (ID <$> todos s)).
  { intros Hin%list_elem_of_In. vm_compute in Hin. intuition discriminate. }
  split; [exact Hfresh|].
  apply (create_then_update rt s c p v u);
    [reflexivity | reflexivity | exact Hfresh | reflexivity | reflexivity
    | reflexivity].
Defined.

Lemma updated_at_never_decreases_witness :
  let cs1 := [post body_AB] in
  let cs2 := [patch id0 (body_status "completed")] in
  let t := mkTodo id0 "A" "B" "pending" 1767225600 1767225601 None in
  let t' := mkTodo id0 "A" "B" "completed" 1767225600 1767225602
              (Some 1767225602) in
  (∀ n, clock rt n ≤ clock rt (S n)) ∧
  todos (run rt cs1 initial) !! 0%nat = Some t ∧
  todos (run rt (cs1 ++ cs2) initial) !! 0%nat = Some t' ∧
  UpdatedAt t ≤ UpdatedAt t'.
Proof.
  intros cs1 cs2 t t'.
  assert (Hmono : ∀ n, clock rt n ≤ clock rt (S n)) by (intros n; simpl; lia).
  split; [exact Hmono|]. split; [reflexivity|]. split; [reflexivity|].
  apply (updated_at_never_decreases rt cs1 cs2 0%nat t t' Hmono);
    reflexivity.
Defined.

End MoreExamples.
